(** * webpack-runtime-api: the build coordinator and the module cache

    A shallow embedding of [src/mod.ts]: [createWebpackAPI], the manager
    returned by [createManager] ([addEntry], [waitForDone], the watch
    callback and the three hook taps), the [Deferred] class and the body of
    [ssrLoadModule].

    The closures of the source share mutable variables; here these are the
    fields of explicit state records which every operation takes and
    returns.  Node's [path] module, the host module loader ([require] and
    [import()]) and webpack itself are not part of the repository: they are
    interfaces (type classes) of which the operations are parameters. *)

From Stdlib Require Import Strings.String Strings.Ascii Lists.List Bool Arith Lia.
From stdpp Require Import base option list gmap strings.

Local Open Scope string_scope.
Import ListNotations.

(** ** JavaScript strings *)

Module Js.

(** [s.startsWith(p)]. *)
Definition startsWith (s p : string) : bool := String.prefix p s.

(** [s.includes(p)]: [p] occurs somewhere in [s]. *)
Fixpoint includes (s p : string) : bool :=
  startsWith s p ||
  match s with
  | EmptyString => false
  | String _ t => includes t p
  end.

(** [s.replace(/\\/g, "/")]: every backslash becomes a forward slash. *)
Fixpoint replace_backslashes (s : string) : string :=
  match s with
  | EmptyString => EmptyString
  | String c t =>
      String (if Ascii.eqb c "\"%char then "/"%char else c)
             (replace_backslashes t)
  end.

(** Truthiness of a value of type [string | undefined]: [undefined] and the
    empty string are falsy. *)
Definition truthy (v : option string) : bool :=
  match v with
  | None => false
  | Some s => negb (String.eqb s "")
  end.

End Js.

(** ** Errors and results *)

(** A JavaScript [Error], identified by its message. *)
Record Error := MkError { message : string }.

Inductive Result (A : Type) : Type :=
| Ok (a : A)
| Throw (e : Error).
Arguments Ok {A} a.
Arguments Throw {A} e.

(** ** Node's [path] module *)

Class NodePath := {
  (** [path.resolve(...segments)] *)
  path_resolve : list string -> string;
  (** [path.relative(from, to)] *)
  path_relative : string -> string -> string;
  (** [__dirname] of the compiled [mod.ts] *)
  dirname : string
}.

(** ** The host's module loader *)

(** A loaded module namespace object is a reference: two values are the same
    object exactly when their addresses are equal. *)
Inductive Mod := ModRef (addr : nat).

Class HostLoader := {
  (** the state of the host's module system *)
  host : Type;
  (** [require(file)] *)
  host_require : string -> host -> Result Mod * host;
  (** [import(file)], from the call to the settlement of its promise *)
  host_import : string -> host -> Result Mod * host
}.

(** ** What webpack hands over *)

(** [stats.toJson()], the fields that are read. *)
Record StatsJson := {
  hash : option string;
  assetsByChunkName : option (gmap string (list string));
  outputPath : string
}.

(** A [Stats] object, through the three methods that are called on it. *)
Record Stats := {
  hasErrors : bool;
  toString : string;
  toJson : StatsJson
}.

(** [output.filename] and [output.chunkFilename]: a template string, a
    function, or not set. *)
Inductive Filename :=
| FilenameString (template : string)
| FilenameFunction
| FilenameUndefined.

Record LibraryOptions := { type : string }.

Inductive EntryOption :=
| EntryConfigured (files : list string)
| EntryNoop (filename : string).

(** [compiler.options], the fields that are read or written. *)
Record Options := {
  context : option string;
  output_library : option LibraryOptions;
  output_filename : Filename;
  output_chunkFilename : Filename;
  entry : EntryOption
}.

(** ** [Deferred] and the manager *)

(** The state of a promise: pending, fulfilled or rejected. *)
Inductive Settled :=
| Fulfilled (stats : Stats)
| Rejected (err : Error).

(** A [Deferred] object: the state of its promise, and how often its
    [resolve] or [reject] has been called. *)
Record Deferred := {
  promise : option Settled;
  settle_calls : nat
}.

Definition new_Deferred : Deferred :=
  {| promise := None; settle_calls := 0 |}.

(** [deferred.resolve(v)] and [deferred.reject(e)]: a pending promise takes
    the outcome, a settled one ignores the call. *)
Definition settle (o : Settled) (d : Deferred) : Deferred :=
  {| promise := match promise d with
                | None => Some o
                | Some o' => Some o'
                end;
     settle_calls := S (settle_calls d) |}.

(** [lastStatus]: [[stats]] or [[undefined, err]]. *)
Inductive Status :=
| StatusStats (stats : Stats)
| StatusError (err : Error).

(** The variables closed over by the manager's methods and by the callbacks
    registered with the compiler, together with what the manager has asked
    of the compiler so far.  [waiting] holds references into [deferreds], the
    store of the [Deferred] objects allocated so far. *)
Record Manager := {
  deferreds : list Deferred;
  waiting : list nat;
  lastStatus : option Status;
  running : bool;
  aborted : bool;
  entries : gset string;
  (** [EntryPlugin]s applied to the compiler: (context, entry, name) *)
  entryPlugins : list (string * string * string);
  (** number of calls of [watching.invalidate()] *)
  invalidations : nat
}.

(** The manager right after [createManager] has returned. *)
Definition createManager : Manager :=
  {| deferreds := []; waiting := []; lastStatus := None;
     running := false; aborted := false; entries := ∅;
     entryPlugins := []; invalidations := 0 |}.

Definition set_running (b : bool) (m : Manager) : Manager :=
  {| deferreds := deferreds m; waiting := waiting m;
     lastStatus := lastStatus m; running := b; aborted := aborted m;
     entries := entries m; entryPlugins := entryPlugins m;
     invalidations := invalidations m |}.

(** [runningCallback], tapped on [watchRun] and on [invalid]. *)
Definition runningCallback : Manager -> Manager := set_running true.

(** The tap on [done]. *)
Definition doneTap : Manager -> Manager := set_running false.

(** The [lastStatus] that the watch callback records for [(err, stats)]. *)
Definition status_of (err : option Error) (stats : option Stats) : Status :=
  match err, stats with
  | Some e, _ => StatusError e
  | None, None => StatusError (MkError "No stats from build")
  | None, Some s => StatusStats s
  end.

(** What a waiter is told for a given [lastStatus]: [reject(lastStatus[1])]
    when the status has two elements, [resolve(lastStatus[0])] otherwise. *)
Definition outcome_of (st : Status) : Settled :=
  match st with
  | StatusError e => Rejected e
  | StatusStats s => Fulfilled s
  end.

(** One iteration of [for (const deferred of waiting)]. *)
Definition settle_at (o : Settled) (store : list Deferred) (d : nat)
  : list Deferred :=
  alter (settle o) d store.

(** The callback given to [compiler.watch] (the call of [console.log], which
    changes nothing here, is left out). *)
Definition watchCallback (err : option Error) (stats : option Stats)
    (m : Manager) : Manager :=
  let st := status_of err stats in
  {| deferreds := fold_left (settle_at (outcome_of st)) (waiting m) (deferreds m);
     waiting := waiting m;
     lastStatus := Some st;
     running := if negb (aborted m) then false else running m;
     aborted := aborted m;
     entries := entries m; entryPlugins := entryPlugins m;
     invalidations := invalidations m |}.

Section WithPath.
Context {node_path : NodePath}.

(** The identifier computed in [addEntry] (lines 138-140). *)
Definition addEntry_relative (context filename : string) : string :=
  let relative := Js.replace_backslashes (path_relative context filename) in
  if negb (Js.startsWith relative "./") && negb (Js.startsWith relative "../")
  then "./" ++ relative
  else relative.

(** [manager.addEntry(filename)].  The manager applies an [EntryPlugin] and
    calls [watching.invalidate()]; both are recorded.  What the compiler does
    in response, the taps it calls included, is an event of its own. *)
Definition addEntry (context filename : string) (m : Manager) : Manager :=
  let size0 := size (entries m) in
  let entries' := {[ filename ]} ∪ entries m in
  if decide (size entries' ≠ size0) then
    let relative := addEntry_relative context filename in
    {| deferreds := deferreds m; waiting := waiting m;
       lastStatus := lastStatus m; running := running m;
       aborted := aborted m;
       entries := entries';
       entryPlugins := entryPlugins m ++ [(context, relative, relative)];
       invalidations := S (invalidations m) |}
  else
    {| deferreds := deferreds m; waiting := waiting m;
       lastStatus := lastStatus m; running := running m;
       aborted := aborted m;
       entries := entries';
       entryPlugins := entryPlugins m;
       invalidations := invalidations m |}.

End WithPath.

(** How a call of [waitForDone] ends: its promise is already fulfilled or
    rejected when the call returns, or it is the promise of a new waiter. *)
Inductive Wait :=
| WaitReturn (stats : Stats)
| WaitThrow (err : Error)
| WaitPending (deferred : nat).

(** [manager.waitForDone()]. *)
Definition waitForDone (m : Manager) : Wait * Manager :=
  if negb (running m) then
    match lastStatus m with
    | None => (WaitThrow (MkError "No build status available"), m)
    | Some (StatusError e) => (WaitThrow e, m)
    | Some (StatusStats s) => (WaitReturn s, m)
    end
  else
    let d := length (deferreds m) in
    (WaitPending d,
     {| deferreds := deferreds m ++ [new_Deferred];
        waiting := waiting m ++ [d];
        lastStatus := lastStatus m; running := running m;
        aborted := aborted m;
        entries := entries m; entryPlugins := entryPlugins m;
        invalidations := invalidations m |}).

(** The state of the promise of waiter [d]. *)
Definition promise_of (m : Manager) (d : nat) : option Settled :=
  deferreds m !! d ≫= promise.

(** How often [resolve] or [reject] of waiter [d] has been called. *)
Definition calls_of (m : Manager) (d : nat) : nat :=
  from_option settle_calls 0 (deferreds m !! d).

(** Everything that can happen to a manager: the compiler calls one of the
    taps or the watch callback, or a client calls a method. *)
Inductive Event :=
| EvWatchRun
| EvInvalid
| EvDone
| EvWatchCallback (err : option Error) (stats : option Stats)
| EvAddEntry (filename : string)
| EvWaitForDone.

Section Traces.
Context {node_path : NodePath}.

(** One event on the manager created for the compiler context [context]. *)
Definition step (context : string) (m : Manager) (e : Event) : Manager :=
  match e with
  | EvWatchRun | EvInvalid => runningCallback m
  | EvDone => doneTap m
  | EvWatchCallback err stats => watchCallback err stats m
  | EvAddEntry filename => addEntry context filename m
  | EvWaitForDone => snd (waitForDone m)
  end.

Definition run (context : string) (evs : list Event) (m : Manager) : Manager :=
  fold_left (step context) evs m.

End Traces.

(** ** The API *)

(** An entry of [modCache]: [{ hash, mod }]. *)
Record CacheEntry := {
  cached_hash : string;
  cached_mod : Mod
}.

(** What the object returned by [createWebpackAPI] closes over: the constants
    [context] and [libraryType], the compiler's options, the manager and
    [modCache]. *)
Record Api := {
  api_context : string;
  api_libraryType : string;
  api_options : Options;
  api_manager : Manager;
  modCache : gmap string CacheEntry
}.

(** [typeof f !== "string" || !f.includes("[contenthash]")]. *)
Definition lacks_contenthash (f : Filename) : bool :=
  match f with
  | FilenameString s => negb (Js.includes s "[contenthash]")
  | FilenameFunction | FilenameUndefined => true
  end.

Section WithHost.
Context {node_path : NodePath} {host_loader : HostLoader}.

(** [createWebpackAPI(compiler)], on the compiler's options. *)
Definition createWebpackAPI (o : Options) : Result Api :=
  let ctx := context o in
  if negb (Js.truthy ctx) then
    Throw (MkError "context must be set in webpack config")
  else
    let libraryType := type <$> output_library o in
    if negb (Js.truthy libraryType) then
      Throw (MkError
        "output.library.type (or output.libraryTarget) must be set in webpack config")
    else if lacks_contenthash (output_filename o)
            || lacks_contenthash (output_chunkFilename o) then
      Throw (MkError
        "output.filename and output.chunkFilename must contain [contenthash] in webpack config")
    else
      Ok {| api_context := default "" ctx;
            api_libraryType := default "" libraryType;
            api_options :=
              {| context := ctx;
                 output_library := output_library o;
                 output_filename := output_filename o;
                 output_chunkFilename := output_chunkFilename o;
                 entry := EntryNoop (path_resolve [dirname; "./noop.js"]) |};
            api_manager := createManager;
            modCache := ∅ |}.

(** The identifier computed in [ssrLoadModule] (lines 52-54). *)
Definition ssrLoadModule_relative (context filename : string) : string :=
  let relative := Js.replace_backslashes (path_relative context filename) in
  if negb (Js.startsWith relative "./") && negb (Js.startsWith relative "../")
  then "./" ++ relative
  else relative.

(** Line 46 of [ssrLoadModule]: [manager.addEntry(path.resolve(filename))]. *)
Definition ssrLoadModule_addEntry (filename : string) (api : Api) : Api :=
  {| api_context := api_context api;
     api_libraryType := api_libraryType api;
     api_options := api_options api;
     api_manager :=
       addEntry (api_context api) (path_resolve [filename]) (api_manager api);
     modCache := modCache api |}.

(** Lines 52-58: the artifact to load for [filename], or the error thrown. *)
Definition resolve_artifact (context filename : string) (statsJson : StatsJson)
  : Result string :=
  let relative := ssrLoadModule_relative context filename in
  let toLoad : option string :=
    match assetsByChunkName statsJson with
    | Some assets =>
        match assets !! relative with
        | Some names => last names
        | None => None
        end
    | None => None
    end in
  let toLoad :=
    match toLoad with
    | Some asset =>
        if Js.truthy toLoad
        then Some (path_resolve [outputPath statsJson; asset])
        else toLoad
    | None => None
    end in
  match toLoad with
  | Some file =>
      if Js.truthy toLoad then Ok file
      else Throw (MkError ("No assets found for " ++ relative))
  | None => Throw (MkError ("No assets found for " ++ relative))
  end.

(** Lines 66-68 and 72-73, once the host has answered: a loaded module is
    stored and returned, an exception of the host passes through. *)
Definition store_loaded (toLoad hash : string) (loaded : Result Mod)
    (cache : gmap string CacheEntry) : Result Mod * gmap string CacheEntry :=
  match loaded with
  | Ok loaded_mod =>
      (Ok loaded_mod,
       <[ toLoad := {| cached_hash := hash; cached_mod := loaded_mod |} ]> cache)
  | Throw e => (Throw e, cache)
  end.

(** Lines 63-77: [switch (libraryType)]. *)
Definition load_fresh (libraryType toLoad hash : string)
    (cache : gmap string CacheEntry) (h : host)
  : Result Mod * gmap string CacheEntry * host :=
  if String.eqb libraryType "commonjs" then
    let (loaded, h') := host_require toLoad h in
    (store_loaded toLoad hash loaded cache, h')
  else if String.eqb libraryType "module" then
    let (loaded, h') := host_import toLoad h in
    (store_loaded toLoad hash loaded cache, h')
  else
    (Throw (MkError ("Unsupported library type: " ++ libraryType)), cache, h).

(** Lines 60-77: serve [toLoad] from the cache or load it. *)
Definition load (libraryType toLoad hash : string)
    (cache : gmap string CacheEntry) (h : host)
  : Result Mod * gmap string CacheEntry * host :=
  match cache !! toLoad with
  | Some cached =>
      if String.eqb (cached_hash cached) hash
      then (Ok (cached_mod cached), cache, h)
      else load_fresh libraryType toLoad hash cache h
  | None => load_fresh libraryType toLoad hash cache h
  end.

(** Lines 48-77 of [ssrLoadModule]: the rest of the call once the promise of
    [manager.waitForDone()] has settled with [awaited]. *)
Definition ssrLoadModule_resume (filename : string) (awaited : Result Stats)
    (api : Api) (h : host) : Result Mod * Api * host :=
  match awaited with
  | Throw e => (Throw e, api, h)
  | Ok stats =>
      if hasErrors stats then (Throw (MkError (toString stats)), api, h)
      else
        let statsJson := toJson stats in
        match hash statsJson with
        | Some hash_ =>
            if negb (Js.truthy (Some hash_)) then
              (Throw (MkError "No hash found in stats"), api, h)
            else
              match resolve_artifact (api_context api) filename statsJson with
              | Throw e => (Throw e, api, h)
              | Ok toLoad =>
                  let '(r, cache', h') :=
                    load (api_libraryType api) toLoad hash_ (modCache api) h in
                  (r,
                   {| api_context := api_context api;
                      api_libraryType := api_libraryType api;
                      api_options := api_options api;
                      api_manager := api_manager api;
                      modCache := cache' |},
                   h')
              end
        | None => (Throw (MkError "No hash found in stats"), api, h)
        end
  end.

End WithHost.

(** ** The whole call *)

(** The API with [modCache] replaced by [cache]. *)
Definition set_modCache (cache : gmap string CacheEntry) (api : Api) : Api :=
  {| api_context := api_context api;
     api_libraryType := api_libraryType api;
     api_options := api_options api;
     api_manager := api_manager api;
     modCache := cache |}.

Section WholeCall.
Context {node_path : NodePath} {host_loader : HostLoader}.

(** Lines 88-93: the check with which [createManager] starts, on the options
    of the compiler it is given. *)
Definition createManager_checked (o : Options) : Result Manager :=
  if negb (Js.truthy (context o)) then
    Throw (MkError "context must be set in webpack config")
  else Ok createManager.

(** The API with its manager replaced by [m]. *)
Definition set_manager (m : Manager) (api : Api) : Api :=
  {| api_context := api_context api;
     api_libraryType := api_libraryType api;
     api_options := api_options api;
     api_manager := m;
     modCache := modCache api |}.

(** Lines 46-47 of [ssrLoadModule]: [addEntry], then the call of
    [waitForDone].  [reaction] is what the compiler does to the manager (the
    taps and the callback it calls) before [watching.invalidate()] returns;
    [invalidate] is only called for a file that is not an entry yet. *)
Definition ssrLoadModule_begin (reaction : list Event) (filename : string)
    (api : Api) : Wait * Api :=
  let file := path_resolve [filename] in
  let m := api_manager api in
  let m1 := addEntry (api_context api) file m in
  let m2 :=
    if decide (file ∈ entries m) then m1
    else run (api_context api) reaction m1 in
  let (w, m3) := waitForDone m2 in
  (w, set_manager m3 api).

(** A call of [ssrLoadModule] while nothing else runs: it ends with a module
    or an exception when [waitForDone] answers at once, and is suspended on
    its waiter otherwise. *)
Definition ssrLoadModule (reaction : list Event) (filename : string)
    (api : Api) (h : host) : (Result Mod * Api * host) + (nat * Api) :=
  let (w, api1) := ssrLoadModule_begin reaction filename api in
  match w with
  | WaitReturn stats0 => inl (ssrLoadModule_resume filename (Ok stats0) api1 h)
  | WaitThrow e => inl (ssrLoadModule_resume filename (Throw e) api1 h)
  | WaitPending d => inr (d, api1)
  end.


(** A call that got as far as the load. *)
Definition reached_load (filename : string) (awaited : Result Stats)
    (api : Api) (h : host) (r : Result Mod) (api' : Api) (h' : host) : Prop :=
  exists stats0 hash0 toLoad cache',
    awaited = Ok stats0
    /\ hasErrors stats0 = false
    /\ hash (toJson stats0) = Some hash0
    /\ hash0 <> ""
    /\ resolve_artifact (api_context api) filename (toJson stats0) = Ok toLoad
    /\ load (api_libraryType api) toLoad hash0 (modCache api) h
       = (r, cache', h')
    /\ api' = set_modCache cache' api.

End WholeCall.

(** The latest signal of the compiler in a trace of events: [true] after
    [watchRun] or [invalid], [false] after [done] or the watch callback, and
    [flag] when the trace has none of them. *)
Fixpoint last_signal (evs : list Event) (flag : bool) : bool :=
  match evs with
  | [] => flag
  | (EvWatchRun | EvInvalid) :: evs' => last_signal evs' true
  | (EvDone | EvWatchCallback _ _) :: evs' => last_signal evs' false
  | (EvAddEntry _ | EvWaitForDone) :: evs' => last_signal evs' flag
  end.

(** The files given to [addEntry] in a trace of events. *)
Fixpoint added (evs : list Event) : list string :=
  match evs with
  | [] => []
  | EvAddEntry filename :: evs' => filename :: added evs'
  | _ :: evs' => added evs'
  end.

(** The number of watch callbacks in a trace of events. *)
Fixpoint callbacks (evs : list Event) : nat :=
  match evs with
  | [] => 0
  | EvWatchCallback _ _ :: evs' => S (callbacks evs')
  | _ :: evs' => callbacks evs'
  end.

(** One plugin and one invalidation for each entry. *)
Definition counted (m : Manager) : Prop :=
  invalidations m = size (entries m)
  /\ length (entryPlugins m) = size (entries m).

(** What a call of [waitForDone] answers when it finds the outcome [o]
    recorded. *)
Definition wait_of (o : Settled) : Wait :=
  match o with
  | Fulfilled stats0 => WaitReturn stats0
  | Rejected e => WaitThrow e
  end.

(** ** The words of the properties *)

(** [p] occurs in [s]: some text, then [p], then some text. *)
Definition occurs_in (p s : string) : Prop :=
  exists a b, s = a ++ p ++ b.

(** A configuration value is missing when it is not set or set to the empty
    string. *)
Definition missing (v : option string) : Prop :=
  v = None \/ v = Some "".

(** A template is a string that contains the placeholder. *)
Definition has_contenthash (f : Filename) : Prop :=
  exists s, f = FilenameString s /\ occurs_in "[contenthash]" s.

(** The invalid configurations: no context, no library kind, or a filename or
    chunk-filename template without the placeholder. *)
Definition invalid_config (o : Options) : Prop :=
  missing (context o)
  \/ missing (type <$> output_library o)
  \/ ~ has_contenthash (output_filename o)
  \/ ~ has_contenthash (output_chunkFilename o).

(** The call is served from the cache: there is an entry for the file and
    its token is the token of the finished build. *)
Definition cache_hit (cache : gmap string CacheEntry) (toLoad hash : string)
  : Prop :=
  exists c, cache !! toLoad = Some c /\ cached_hash c = hash.

(** The identifier has no artifact in the finished build: there is no
    mapping, the identifier is not in it, or its list is empty. *)
Definition no_artifact (statsJson : StatsJson) (relative : string) : Prop :=
  match assetsByChunkName statsJson with
  | None => True
  | Some assets => assets !! relative = None \/ assets !! relative = Some []
  end.

(** Every deferred that was ever allocated is in [waiting], once. *)
Definition all_waiting (m : Manager) : Prop :=
  waiting m = seq 0 (length (deferreds m)).

(** The outcome recorded last in a trace of events: that of its last watch
    callback, if there is one. *)
Fixpoint last_outcome (evs : list Event) (recorded : option Status)
  : option Status :=
  match evs with
  | [] => recorded
  | EvWatchCallback err stats0 :: evs' =>
      last_outcome evs' (Some (status_of err stats0))
  | _ :: evs' => last_outcome evs' recorded
  end.

Section WithInterfaces.
Context {node_path : NodePath} {host_loader : HostLoader}.

(** The host function that [switch (libraryType)] calls for a supported
    kind. *)
Definition loader_of (libraryType : string)
  : option (string -> host -> Result Mod * host) :=
  if String.eqb libraryType "commonjs" then Some host_require
  else if String.eqb libraryType "module" then Some host_import
  else None.

(** Every [EntryPlugin] is the one of an entry. *)
Definition plugins_of_entries (context : string) (m : Manager) : Prop :=
  forall p,
    p ∈ entryPlugins m ->
    exists filename,
      filename ∈ entries m
      /\ p = (context, addEntry_relative context filename,
              addEntry_relative context filename).

(** Every entry has its [EntryPlugin] under the identifier of [addEntry]. *)
Definition registered (context : string) (m : Manager) : Prop :=
  forall filename,
    filename ∈ entries m ->
    (context, addEntry_relative context filename,
     addEntry_relative context filename) ∈ entryPlugins m.

End WithInterfaces.

(** ** Instances for the examples *)

Module Example.

(** The path functions of the examples: POSIX paths, split at the slashes,
    with ["."] and empty segments dropped and [".."] removing the segment
    before it.  The working directory is [/work]. *)
Fixpoint split_go (cur : string) (s : string) : list string :=
  match s with
  | EmptyString => [String.rev cur]
  | String c t =>
      if Ascii.eqb c "/"%char then String.rev cur :: split_go "" t
      else split_go (String c cur) t
  end.

Definition split (s : string) : list string := split_go "" s.

Fixpoint normalize_go (stack : list string) (segs : list string) : list string :=
  match segs with
  | [] => rev stack
  | seg :: rest =>
      if String.eqb seg "" || String.eqb seg "." then normalize_go stack rest
      else if String.eqb seg ".." then normalize_go (tail stack) rest
      else normalize_go (seg :: stack) rest
  end.

Definition join (segs : list string) : string :=
  "/" ++ String.concat "/" segs.

Definition cwd : string := "/work".

Definition resolve (paths : list string) : string :=
  let pick := fix pick (acc : string) (rev_paths : list string) : string :=
    match rev_paths with
    | [] => cwd ++ "/" ++ acc
    | p :: rest =>
        if String.eqb p "" then pick acc rest
        else if Js.startsWith p "/" then p ++ "/" ++ acc
        else pick (p ++ "/" ++ acc) rest
    end in
  join (normalize_go [] (split (pick "" (rev paths)))).

Fixpoint strip_common (a b : list string) : list string * list string :=
  match a, b with
  | x :: a', y :: b' =>
      if String.eqb x y then strip_common a' b' else (a, b)
  | _, _ => (a, b)
  end.

Definition relative (from to : string) : string :=
  let f := normalize_go [] (split (resolve [from])) in
  let t := normalize_go [] (split (resolve [to])) in
  let (f', t') := strip_common f t in
  String.concat "/" (repeat ".." (length f') ++ t').

#[export] Instance posix : NodePath :=
  {| path_resolve := resolve;
     path_relative := relative;
     dirname := "/work/node_modules/webpack-runtime-api/dist" |}.

(** The host of the examples.  Its state is the list of the files loaded so
    far, the latest first; a load allocates the next address, and a file
    whose name contains [broken] throws. *)
Definition load_file (file : string) (loaded : list string)
  : Result Mod * list string :=
  if Js.includes file "broken"
  then (Throw (MkError ("Cannot find module " ++ file)), file :: loaded)
  else (Ok (ModRef (length loaded)), file :: loaded).

#[export] Instance counting : HostLoader :=
  {| host := list string;
     host_require := load_file;
     host_import := load_file |}.

Definition stats_json (h : string) : StatsJson :=
  {| hash := Some h;
     assetsByChunkName :=
       Some {[ "./src/a.ts" := ["runtime.1.cjs"; "a." ++ h ++ ".cjs"];
               "./src/empty.ts" := [] ]};
     outputPath := "/work/dist" |}.

Definition stats (h : string) : Stats :=
  {| hasErrors := false; toString := "compiled successfully";
     toJson := stats_json h |}.

Definition options (kind : string) : Options :=
  {| context := Some "/work";
     output_library := Some {| type := kind |};
     output_filename := FilenameString "[name].[contenthash].cjs";
     output_chunkFilename := FilenameString "[name].[contenthash].cjs";
     entry := EntryConfigured ["/work/src/a.ts"] |}.

Definition api (kind : string) : Api :=
  {| api_context := "/work";
     api_libraryType := kind;
     api_options :=
       {| context := Some "/work";
          output_library := Some {| type := kind |};
          output_filename := FilenameString "[name].[contenthash].cjs";
          output_chunkFilename := FilenameString "[name].[contenthash].cjs";
          entry :=
            EntryNoop "/work/node_modules/webpack-runtime-api/dist/noop.js" |};
     api_manager := createManager;
     modCache := ∅ |}.

End Example.

#[local] Existing Instances Example.posix Example.counting.

(** The artifact of [src/a.ts] in the build with hash [h1], and the cache
    after it has been loaded first. *)
Definition a_h1 : string := "/work/dist/a.h1.cjs".

Definition a_h1_cached : gmap string CacheEntry :=
  <[ a_h1 := {| cached_hash := "h1"; cached_mod := ModRef 0 |} ]> ∅.

(** An artifact that the host of the examples fails to load. *)
Definition broken : string := "/work/dist/broken.cjs".

(** The stats of a build with errors, and of a build without a hash. *)
Definition failed_stats : Stats :=
  {| hasErrors := true;
     toString := "ERROR in ./src/a.ts: Unexpected token";
     toJson := Example.stats_json "h3" |}.

Definition no_hash_stats : Stats :=
  {| hasErrors := false;
     toString := "compiled";
     toJson := {| hash := None; assetsByChunkName := None;
                  outputPath := "/work/dist" |} |}.

(** The events of a first build with [src/a.ts] as an entry, the API after
    them, and an API with two calls waiting for a build. *)
Definition built_trace : list Event :=
  [EvAddEntry "/work/src/a.ts"; EvInvalid; EvWatchRun; EvDone;
   EvWatchCallback None (Some (Example.stats "h1"))].

Definition built_api : Api :=
  set_manager (run "/work" built_trace createManager) (Example.api "commonjs").

Definition waiting_api : Api :=
  set_manager
    (run "/work" [EvWatchRun; EvWaitForDone; EvWaitForDone] createManager)
    (Example.api "commonjs").

(** * Properties *)

(** ** Strings *)

Lemma append_String (c : ascii) (a b : string) :
  String c a ++ b = String c (a ++ b).
Proof. reflexivity. Qed.

Lemma append_empty (b : string) : "" ++ b = b.
Proof. reflexivity. Qed.

Lemma prefix_app (p s : string) :
  String.prefix p s = true <-> exists b, s = p ++ b.
Proof.
  revert s. induction p as [|c p IH]; intros s.
  - split; [intros _; exists s; reflexivity | intros _; destruct s; reflexivity].
  - destruct s as [|c' s]; simpl.
    + split; [discriminate | intros [b Hb]; discriminate].
    + destruct (ascii_dec c c') as [->|Hne].
      * rewrite IH. split; intros [b Hb]; exists b.
        -- rewrite append_String, Hb. reflexivity.
        -- rewrite append_String in Hb. congruence.
      * split; [discriminate|].
        intros [b Hb]. rewrite append_String in Hb. congruence.
Qed.

Lemma includes_occurs_in (s p : string) :
  Js.includes s p = true <-> occurs_in p s.
Proof.
  unfold occurs_in. induction s as [|c t IH]; cbn [Js.includes].
  - rewrite orb_false_r. unfold Js.startsWith. rewrite prefix_app. split.
    + intros [b Hb]. exists "", b. exact Hb.
    + intros (a & b & Hab). destruct a; [exists b; exact Hab | discriminate].
  - rewrite orb_true_iff, IH. unfold Js.startsWith. rewrite prefix_app. split.
    + intros [[b Hb] | (a & b & Hab)].
      * exists "", b. exact Hb.
      * exists (String c a), b. rewrite append_String, Hab. reflexivity.
    + intros (a & b & Hab). destruct a as [|c' a].
      * left. exists b. exact Hab.
      * right. exists a, b. rewrite append_String in Hab. congruence.
Qed.

Lemma truthy_Some (v : option string) :
  Js.truthy v = true <-> exists s, v = Some s /\ s <> "".
Proof.
  destruct v as [s|]; simpl.
  - rewrite negb_true_iff. split.
    + intros Hs. exists s. split; [reflexivity|].
      intros ->. discriminate.
    + intros (s' & [= <-] & Hne). apply String.eqb_neq. exact Hne.
  - split; [discriminate | intros (s & Hs & _); discriminate].
Qed.

Lemma startsWith_app (p s : string) : Js.startsWith (p ++ s) p = true.
Proof. apply prefix_app. exists s. reflexivity. Qed.

(** ** Construction: which configurations are rejected *)

Lemma truthy_missing (v : option string) :
  Js.truthy v = false <-> missing v.
Proof.
  unfold missing. destruct v as [s|]; simpl.
  - rewrite negb_false_iff, String.eqb_eq. split.
    + intros ->. right. reflexivity.
    + intros [Hn | [= ->]]; [discriminate | reflexivity].
  - split; [left; reflexivity | reflexivity].
Qed.

Lemma lacks_contenthash_spec (f : Filename) :
  lacks_contenthash f = true <-> ~ has_contenthash f.
Proof.
  unfold has_contenthash. destruct f as [s| |]; simpl.
  - rewrite negb_true_iff, <- not_true_iff_false, includes_occurs_in. split.
    + intros Hn (s' & [= <-] & Hs). exact (Hn Hs).
    + intros Hn Hs. apply Hn. exists s. split; [reflexivity | exact Hs].
  - split; [intros _ (s & Hs & _); discriminate | reflexivity].
  - split; [intros _ (s & Hs & _); discriminate | reflexivity].
Qed.

Section Construction.
Context {node_path : NodePath} {host_loader : HostLoader}.

Lemma createWebpackAPI_Ok (o : Options) :
  Js.truthy (context o) = true ->
  Js.truthy (type <$> output_library o) = true ->
  lacks_contenthash (output_filename o) = false ->
  lacks_contenthash (output_chunkFilename o) = false ->
  exists api,
    createWebpackAPI o = Ok api
    /\ api_libraryType api = default "" (type <$> output_library o)
    /\ api_context api = default "" (context o)
    /\ api_manager api = createManager
    /\ modCache api = ∅.
Proof.
  intros Hc Hl Hf Hk. unfold createWebpackAPI.
  rewrite Hc, Hl, Hf, Hk. simpl. eexists. repeat split.
Qed.

(** C7: [createWebpackAPI] throws exactly on the invalid configurations (no
    context, no library kind, or a filename or chunk-filename template that
    is not a string containing [[contenthash]]); on every other
    configuration it returns the API. *)
Theorem createWebpackAPI_throws_iff_invalid (o : Options) :
  ((exists e, createWebpackAPI o = Throw e) <-> invalid_config o)
  /\ ((exists api, createWebpackAPI o = Ok api) <-> ~ invalid_config o).
Proof.
  assert (Hdec :
    (invalid_config o /\ exists e, createWebpackAPI o = Throw e)
    \/ (~ invalid_config o /\ exists api, createWebpackAPI o = Ok api)).
  { unfold invalid_config.
    destruct (Js.truthy (context o)) eqn:Hc.
    2:{ left. split; [left; apply truthy_missing; exact Hc|].
        unfold createWebpackAPI. rewrite Hc. simpl. eauto. }
    destruct (Js.truthy (type <$> output_library o)) eqn:Hl.
    2:{ left. split; [right; left; apply truthy_missing; exact Hl|].
        unfold createWebpackAPI. rewrite Hc, Hl. simpl. eauto. }
    destruct (lacks_contenthash (output_filename o)) eqn:Hf.
    { left. split; [right; right; left; apply lacks_contenthash_spec; exact Hf|].
      unfold createWebpackAPI. rewrite Hc, Hl, Hf. simpl. eauto. }
    destruct (lacks_contenthash (output_chunkFilename o)) eqn:Hk.
    { left. split; [right; right; right; apply lacks_contenthash_spec; exact Hk|].
      unfold createWebpackAPI. rewrite Hc, Hl, Hf, Hk. simpl. eauto. }
    right. split.
    - intros [Hm | [Hm | [Hm | Hm]]].
      + apply truthy_missing in Hm. congruence.
      + apply truthy_missing in Hm. congruence.
      + apply lacks_contenthash_spec in Hm. congruence.
      + apply lacks_contenthash_spec in Hm. congruence.
    - destruct (createWebpackAPI_Ok o Hc Hl Hf Hk) as (api & Hapi & _).
      exists api. exact Hapi. }
  destruct Hdec as [[Hi [e He]] | [Hv [api Ha]]]; split; split.
  - intros _. exact Hi.
  - intros _. exists e. exact He.
  - intros [api Ha]. congruence.
  - intros Hn. contradiction.
  - intros [e He]. congruence.
  - intros Hi. contradiction.
  - intros _. exact Hv.
  - intros _. exists api. exact Ha.
Qed.

End Construction.

(** ** The module cache *)

Section Cache.
Context {node_path : NodePath} {host_loader : HostLoader}.

Lemma load_hit libraryType toLoad hash (cache : gmap string CacheEntry) h c :
  cache !! toLoad = Some c ->
  cached_hash c = hash ->
  load libraryType toLoad hash cache h = (Ok (cached_mod c), cache, h).
Proof.
  intros Hc Hh. unfold load. rewrite Hc.
  apply String.eqb_eq in Hh. rewrite Hh. reflexivity.
Qed.

Lemma load_miss libraryType toLoad hash (cache : gmap string CacheEntry) h :
  ~ cache_hit cache toLoad hash ->
  load libraryType toLoad hash cache h
  = load_fresh libraryType toLoad hash cache h.
Proof.
  intros Hmiss. unfold load.
  destruct (cache !! toLoad) as [c|] eqn:Hc; [|reflexivity].
  destruct (String.eqb (cached_hash c) hash) eqn:Heq; [|reflexivity].
  exfalso. apply Hmiss. exists c. split; [exact Hc|].
  apply String.eqb_eq. exact Heq.
Qed.

Lemma load_fresh_supported libraryType toLoad hash
    (cache : gmap string CacheEntry) h loader :
  loader_of libraryType = Some loader ->
  load_fresh libraryType toLoad hash cache h
  = (store_loaded toLoad hash (fst (loader toLoad h)) cache,
     snd (loader toLoad h)).
Proof.
  unfold loader_of, load_fresh.
  destruct (String.eqb libraryType "commonjs").
  - intros [= <-]. destruct (host_require toLoad h). reflexivity.
  - destruct (String.eqb libraryType "module"); [|discriminate].
    intros [= <-]. destruct (host_import toLoad h). reflexivity.
Qed.

Lemma load_fresh_unsupported libraryType toLoad hash
    (cache : gmap string CacheEntry) h :
  libraryType <> "commonjs" ->
  libraryType <> "module" ->
  load_fresh libraryType toLoad hash cache h
  = (Throw (MkError ("Unsupported library type: " ++ libraryType)), cache, h).
Proof.
  intros Hc Hm. unfold load_fresh.
  apply String.eqb_neq in Hc, Hm. rewrite Hc, Hm. reflexivity.
Qed.

Lemma loader_of_supported libraryType :
  libraryType = "commonjs" \/ libraryType = "module" ->
  loader_of libraryType
  = Some (if String.eqb libraryType "commonjs" then host_require
          else host_import).
Proof.
  intros [-> | ->]; reflexivity.
Qed.

(** C1: when the cache holds an entry for the artifact whose token is the
    token of the finished build, the stored value itself is returned, and
    neither the cache nor the host changes; otherwise, when the host loads
    the artifact for the configured kind, the cache entry of that path becomes
    the pair of the token and the new value, the other entries stay, and the
    new value is returned; the next load of the same path and token then
    returns that same value without asking the host. *)
Theorem load_cached_or_fresh libraryType toLoad hash
    (cache : gmap string CacheEntry) (h : host) :
  (forall c,
      cache !! toLoad = Some c ->
      cached_hash c = hash ->
      load libraryType toLoad hash cache h = (Ok (cached_mod c), cache, h))
  /\ (forall loader loaded h',
      ~ cache_hit cache toLoad hash ->
      loader_of libraryType = Some loader ->
      loader toLoad h = (Ok loaded, h') ->
      load libraryType toLoad hash cache h
      = (Ok loaded,
         <[ toLoad := {| cached_hash := hash; cached_mod := loaded |} ]> cache,
         h')
      /\ (forall other,
            other <> toLoad ->
            (<[ toLoad := {| cached_hash := hash; cached_mod := loaded |} ]>
               cache) !! other = cache !! other)
      /\ (forall h2,
            load libraryType toLoad hash
              (<[ toLoad := {| cached_hash := hash; cached_mod := loaded |} ]>
                 cache) h2
            = (Ok loaded,
               <[ toLoad := {| cached_hash := hash; cached_mod := loaded |} ]>
                 cache,
               h2))).
Proof.
  split.
  - intros c Hc Hh. apply load_hit; assumption.
  - intros loader loaded h' Hmiss Hl Hload. split; [|split].
    + rewrite load_miss by exact Hmiss.
      rewrite (load_fresh_supported _ _ _ _ _ loader Hl), Hload.
      reflexivity.
    + intros other Hne. apply lookup_insert_ne. congruence.
    + intros h2.
      apply (load_hit _ _ _ _ _
               {| cached_hash := hash; cached_mod := loaded |});
        [apply lookup_insert_eq | reflexivity].
Qed.

(** C9: when the host throws while loading, the call ends with that
    exception and the cache is what it was; the next call for the same path
    and token is not served from the cache but asks the host again. *)
Theorem load_failure_leaves_cache libraryType toLoad hash
    (cache : gmap string CacheEntry) (h h' : host) loader e :
  ~ cache_hit cache toLoad hash ->
  loader_of libraryType = Some loader ->
  loader toLoad h = (Throw e, h') ->
  load libraryType toLoad hash cache h = (Throw e, cache, h')
  /\ forall r cache1 h1,
      load libraryType toLoad hash cache h = (r, cache1, h1) ->
      forall h2,
        load libraryType toLoad hash cache1 h2
        = (store_loaded toLoad hash (fst (loader toLoad h2)) cache1,
           snd (loader toLoad h2)).
Proof.
  intros Hmiss Hl Hthrow.
  assert (Hfirst :
    load libraryType toLoad hash cache h = (Throw e, cache, h')).
  { rewrite load_miss by exact Hmiss.
    rewrite (load_fresh_supported _ _ _ _ _ loader Hl), Hthrow. reflexivity. }
  split; [exact Hfirst|].
  intros r cache1 h1 Hcall h2. rewrite Hfirst in Hcall.
  injection Hcall as _ <- _.
  rewrite load_miss by exact Hmiss.
  apply load_fresh_supported. exact Hl.
Qed.

End Cache.

(** ** Resolution and the checks before it *)

Section Resolution.
Context {node_path : NodePath} {host_loader : HostLoader}.

Lemma relative_convention context filename :
  Js.startsWith (ssrLoadModule_relative context filename) "./" = true
  \/ Js.startsWith (ssrLoadModule_relative context filename) "../" = true.
Proof.
  unfold ssrLoadModule_relative.
  set (r := Js.replace_backslashes (path_relative context filename)).
  destruct (Js.startsWith r "./") eqn:H1; simpl.
  - left. exact H1.
  - destruct (Js.startsWith r "../") eqn:H2; simpl.
    + right. exact H2.
    + left. apply startsWith_app.
Qed.

Lemma resolve_artifact_found context filename statsJson assets names asset :
  assetsByChunkName statsJson = Some assets ->
  assets !! ssrLoadModule_relative context filename = Some names ->
  last names = Some asset ->
  asset <> "" ->
  path_resolve [outputPath statsJson; asset] <> "" ->
  resolve_artifact context filename statsJson
  = Ok (path_resolve [outputPath statsJson; asset]).
Proof.
  intros Ha Hn Hl Hne Hr. unfold resolve_artifact.
  rewrite Ha, Hn, Hl.
  assert (Ht : Js.truthy (Some asset) = true).
  { apply truthy_Some. eauto. }
  rewrite Ht.
  assert (Ht' : Js.truthy (Some (path_resolve [outputPath statsJson; asset]))
                = true).
  { apply truthy_Some. eauto. }
  rewrite Ht'. reflexivity.
Qed.

Lemma resolve_artifact_none context filename statsJson :
  no_artifact statsJson (ssrLoadModule_relative context filename) ->
  resolve_artifact context filename statsJson
  = Throw (MkError ("No assets found for "
                    ++ ssrLoadModule_relative context filename)).
Proof.
  unfold no_artifact, resolve_artifact.
  destruct (assetsByChunkName statsJson) as [assets|]; [|reflexivity].
  intros [-> | ->]; reflexivity.
Qed.

(** After the two checks on the stats, the call is resolution followed by
    the load. *)
Lemma ssrLoadModule_resume_checked filename stats0 api h hash0 :
  hasErrors stats0 = false ->
  hash (toJson stats0) = Some hash0 ->
  hash0 <> "" ->
  ssrLoadModule_resume filename (Ok stats0) api h
  = match resolve_artifact (api_context api) filename (toJson stats0) with
    | Throw e => (Throw e, api, h)
    | Ok toLoad =>
        let r := load (api_libraryType api) toLoad hash0 (modCache api) h in
        (fst (fst r), set_modCache (snd (fst r)) api, snd r)
    end.
Proof.
  intros He Hh Hne. unfold ssrLoadModule_resume. rewrite He, Hh.
  assert (Ht : Js.truthy (Some hash0) = true) by (apply truthy_Some; eauto).
  rewrite Ht. simpl.
  destruct (resolve_artifact _ _ _) as [toLoad|e]; [|reflexivity].
  destruct (load _ _ _ _ _) as [[r cache'] h']. reflexivity.
Qed.

Lemma ssrLoadModule_resume_errors filename stats0 api h :
  hasErrors stats0 = true ->
  ssrLoadModule_resume filename (Ok stats0) api h
  = (Throw (MkError (toString stats0)), api, h).
Proof. intros He. unfold ssrLoadModule_resume. rewrite He. reflexivity. Qed.

Lemma ssrLoadModule_resume_no_hash filename stats0 api h :
  hasErrors stats0 = false ->
  Js.truthy (hash (toJson stats0)) = false ->
  ssrLoadModule_resume filename (Ok stats0) api h
  = (Throw (MkError "No hash found in stats"), api, h).
Proof.
  intros He Hh. unfold ssrLoadModule_resume. rewrite He.
  destruct (hash (toJson stats0)) as [hash0|]; [|reflexivity].
  rewrite Hh. reflexivity.
Qed.

(** C4: the identifier looked up always starts with [./] or [../]; when the
    build's mapping has a list for it, the artifact is the last name of the
    list resolved against the output directory; when the identifier is not in
    the mapping or its list is empty, [ssrLoadModule] throws the error
    [No assets found for] the identifier, and nothing is loaded or cached. *)
Theorem resolve_artifact_last_or_error filename stats0 api h hash0 :
  hasErrors stats0 = false ->
  hash (toJson stats0) = Some hash0 ->
  hash0 <> "" ->
  let relative := ssrLoadModule_relative (api_context api) filename in
  (Js.startsWith relative "./" = true \/ Js.startsWith relative "../" = true)
  /\ (forall assets names asset,
        assetsByChunkName (toJson stats0) = Some assets ->
        assets !! relative = Some names ->
        last names = Some asset ->
        asset <> "" ->
        path_resolve [outputPath (toJson stats0); asset] <> "" ->
        resolve_artifact (api_context api) filename (toJson stats0)
        = Ok (path_resolve [outputPath (toJson stats0); asset])
        /\ ssrLoadModule_resume filename (Ok stats0) api h
           = let r := load (api_libraryType api)
                        (path_resolve [outputPath (toJson stats0); asset])
                        hash0 (modCache api) h in
             (fst (fst r), set_modCache (snd (fst r)) api, snd r))
  /\ (no_artifact (toJson stats0) relative ->
      ssrLoadModule_resume filename (Ok stats0) api h
      = (Throw (MkError ("No assets found for " ++ relative)), api, h)).
Proof.
  intros He Hh Hne relative. split; [apply relative_convention|]. split.
  - intros assets names asset Ha Hn Hl Hasset Hres.
    pose proof (resolve_artifact_found _ filename _ _ _ _ Ha Hn Hl Hasset Hres)
      as Hfound.
    split; [exact Hfound|].
    rewrite (ssrLoadModule_resume_checked _ _ _ _ _ He Hh Hne), Hfound.
    reflexivity.
  - intros Hno.
    rewrite (ssrLoadModule_resume_checked _ _ _ _ _ He Hh Hne).
    rewrite (resolve_artifact_none _ _ _ Hno). reflexivity.
Qed.

(** C8: once the awaited build outcome is there, a build with errors makes
    the call throw one error whose message is the rendering of the stats; a
    build without errors and without a hash makes it throw
    [No hash found in stats]; in both cases nothing is resolved, loaded or
    cached.  A rejected wait is passed on as it is.  A call that returns a
    module had a build without errors and with a hash, and every such build
    goes on to resolution and loading. *)
Theorem ssrLoadModule_checks_stats filename api h :
  (forall stats0,
      hasErrors stats0 = true ->
      ssrLoadModule_resume filename (Ok stats0) api h
      = (Throw (MkError (toString stats0)), api, h))
  /\ (forall stats0,
      hasErrors stats0 = false ->
      Js.truthy (hash (toJson stats0)) = false ->
      ssrLoadModule_resume filename (Ok stats0) api h
      = (Throw (MkError "No hash found in stats"), api, h))
  /\ (forall stats0 hash0,
      hasErrors stats0 = false ->
      hash (toJson stats0) = Some hash0 ->
      hash0 <> "" ->
      ssrLoadModule_resume filename (Ok stats0) api h
      = match resolve_artifact (api_context api) filename (toJson stats0) with
        | Throw e => (Throw e, api, h)
        | Ok toLoad =>
            let r := load (api_libraryType api) toLoad hash0 (modCache api) h in
            (fst (fst r), set_modCache (snd (fst r)) api, snd r)
        end)
  /\ (forall e,
      ssrLoadModule_resume filename (Throw e) api h = (Throw e, api, h))
  /\ (forall awaited loaded api' h',
      ssrLoadModule_resume filename awaited api h = (Ok loaded, api', h') ->
      exists stats0,
        awaited = Ok stats0
        /\ hasErrors stats0 = false
        /\ Js.truthy (hash (toJson stats0)) = true).
Proof.
  split; [|split; [|split; [|split]]].
  - intros stats0. apply ssrLoadModule_resume_errors.
  - intros stats0. apply ssrLoadModule_resume_no_hash.
  - intros stats0 hash0. apply ssrLoadModule_resume_checked.
  - reflexivity.
  - intros [stats0|e] loaded api' h' Hret; [|discriminate].
    exists stats0. split; [reflexivity|].
    destruct (hasErrors stats0) eqn:He.
    + rewrite ssrLoadModule_resume_errors in Hret by exact He. discriminate.
    + split; [reflexivity|].
      destruct (Js.truthy (hash (toJson stats0))) eqn:Ht; [reflexivity|].
      rewrite ssrLoadModule_resume_no_hash in Hret by assumption.
      discriminate.
Qed.

End Resolution.

(** ** The entry registry *)

Section Registry.
Context {node_path : NodePath}.

Lemma size_add_changes (filename : string) (s : gset string) :
  size ({[ filename ]} ∪ s) ≠ size s <-> filename ∉ s.
Proof.
  split.
  - intros Hsize Hin. apply Hsize. f_equal.
    apply subseteq_union_1_L, singleton_subseteq_l. exact Hin.
  - intros Hnin. rewrite size_union.
    + rewrite size_singleton. lia.
    + apply disjoint_singleton_l. exact Hnin.
Qed.

Lemma addEntry_present context filename (m : Manager) :
  filename ∈ entries m -> addEntry context filename m = m.
Proof.
  intros Hin. unfold addEntry.
  destruct (decide _) as [Hsize|_].
  - apply size_add_changes in Hsize. contradiction.
  - assert (He : {[ filename ]} ∪ entries m = entries m).
    { apply subseteq_union_1_L, singleton_subseteq_l. exact Hin. }
    rewrite He. destruct m. reflexivity.
Qed.

Lemma addEntry_new context filename (m : Manager) :
  filename ∉ entries m ->
  addEntry context filename m
  = {| deferreds := deferreds m; waiting := waiting m;
       lastStatus := lastStatus m; running := running m;
       aborted := aborted m;
       entries := {[ filename ]} ∪ entries m;
       entryPlugins :=
         (entryPlugins m ++ [(context, addEntry_relative context filename,
                              addEntry_relative context filename)])%list;
       invalidations := S (invalidations m) |}.
Proof.
  intros Hnin. unfold addEntry.
  destruct (decide _) as [_|Hsize]; [reflexivity|].
  exfalso. apply Hsize. apply size_add_changes. exact Hnin.
Qed.

Lemma addEntry_entries context filename (m : Manager) :
  entries (addEntry context filename m) = {[ filename ]} ∪ entries m.
Proof. unfold addEntry. destruct (decide _); reflexivity. Qed.

Lemma step_entries_mono context (m : Manager) e filename :
  filename ∈ entries m -> filename ∈ entries (step context m e).
Proof.
  intros Hin. destruct e; simpl; try exact Hin.
  - rewrite addEntry_entries. set_solver.
  - unfold waitForDone. destruct (negb (running m)); simpl; [|exact Hin].
    destruct (lastStatus m) as [[?|?]|]; exact Hin.
Qed.

Lemma run_entries_mono context evs (m : Manager) filename :
  filename ∈ entries m -> filename ∈ entries (run context evs m).
Proof.
  revert m. induction evs as [|e evs IH]; intros m Hin; [exact Hin|].
  simpl. apply IH. apply step_entries_mono. exact Hin.
Qed.

(** C3: [addEntry] with a path that is already an entry changes nothing;
    with a new path it adds the path, applies one [EntryPlugin] and calls
    [invalidate] once; so a second [addEntry] of the same path, whatever
    happened in between, changes nothing, and two calls in a row cause at
    most one registration and one invalidation. *)
Theorem addEntry_idempotent context filename (m : Manager) :
  (filename ∈ entries m -> addEntry context filename m = m)
  /\ (filename ∉ entries m ->
      entries (addEntry context filename m) = {[ filename ]} ∪ entries m
      /\ entryPlugins (addEntry context filename m)
         = (entryPlugins m ++ [(context, addEntry_relative context filename,
                                addEntry_relative context filename)])%list
      /\ invalidations (addEntry context filename m) = S (invalidations m))
  /\ (forall evs,
        let m1 := run context evs (addEntry context filename m) in
        addEntry context filename m1 = m1)
  /\ addEntry context filename (addEntry context filename m)
     = addEntry context filename m
  /\ invalidations (addEntry context filename (addEntry context filename m))
     <= S (invalidations m)
  /\ length (entryPlugins
               (addEntry context filename (addEntry context filename m)))
     <= S (length (entryPlugins m)).
Proof.
  assert (Hin1 : filename ∈ entries (addEntry context filename m)).
  { rewrite addEntry_entries. set_solver. }
  assert (Htwice : addEntry context filename (addEntry context filename m)
                   = addEntry context filename m).
  { apply addEntry_present. exact Hin1. }
  split; [apply addEntry_present|]. split.
  { intros Hnin. rewrite addEntry_new by exact Hnin. simpl. auto. }
  split.
  { intros evs m1. apply addEntry_present.
    apply run_entries_mono. exact Hin1. }
  split; [exact Htwice|]. rewrite Htwice.
  destruct (decide (filename ∈ entries m)) as [Hin|Hnin].
  - rewrite addEntry_present by exact Hin. lia.
  - rewrite addEntry_new by exact Hnin. simpl. rewrite length_app. simpl. lia.
Qed.

End Registry.

(** ** Waiters *)

(** [settle] called [n] times. *)
Lemma promise_iter_settle (o : Settled) (n : nat) (x : Deferred) :
  promise (Nat.iter n (settle o) x)
  = match promise x with
    | Some o' => Some o'
    | None => if Nat.eqb n 0 then None else Some o
    end.
Proof.
  induction n as [|n IH]; simpl.
  - destruct (promise x); reflexivity.
  - rewrite IH. destruct (promise x); [reflexivity|].
    destruct (Nat.eqb n 0); reflexivity.
Qed.

Lemma calls_iter_settle (o : Settled) (n : nat) (x : Deferred) :
  settle_calls (Nat.iter n (settle o) x) = n + settle_calls x.
Proof. induction n as [|n IH]; simpl; [reflexivity | rewrite IH; reflexivity]. Qed.

(** The loop over [waiting]: the deferred at [d] has been settled once for
    each occurrence of [d] in the list. *)
Lemma fold_settle_lookup (o : Settled) (ids : list nat) (store : list Deferred)
    (d : nat) :
  fold_left (settle_at o) ids store !! d
  = Nat.iter (count_occ Nat.eq_dec ids d) (settle o) <$> store !! d.
Proof.
  revert store. induction ids as [|i ids IH]; intros store; simpl.
  - destruct (store !! d); reflexivity.
  - rewrite IH. unfold settle_at.
    destruct (Nat.eq_dec i d) as [->|Hne].
    + rewrite list_lookup_alter_eq. destruct (store !! d) as [x|]; simpl;
        [|reflexivity].
      f_equal. symmetry. exact (Nat.iter_succ_r _ _ _).
    + rewrite list_lookup_alter_ne by exact Hne. reflexivity.
Qed.

Lemma fold_settle_length (o : Settled) (ids : list nat) (store : list Deferred) :
  length (fold_left (settle_at o) ids store) = length store.
Proof.
  revert store. induction ids as [|i ids IH]; intros store; simpl;
    [reflexivity|].
  rewrite IH. unfold settle_at. apply length_alter.
Qed.

Section Waiters.
Context {node_path : NodePath}.

Lemma step_all_waiting context (m : Manager) e :
  all_waiting m -> all_waiting (step context m e).
Proof.
  unfold all_waiting. intros Hw. destruct e; simpl; try exact Hw.
  - rewrite fold_settle_length. exact Hw.
  - unfold addEntry. destruct (decide _); exact Hw.
  - unfold waitForDone. destruct (negb (running m)); simpl.
    + destruct (lastStatus m) as [[?|?]|]; exact Hw.
    + rewrite length_app, Hw. simpl.
      rewrite Nat.add_1_r, seq_S. reflexivity.
Qed.

Lemma run_all_waiting context evs (m : Manager) :
  all_waiting m -> all_waiting (run context evs m).
Proof.
  revert m. induction evs as [|e evs IH]; intros m Hw; [exact Hw|].
  simpl. apply IH. apply step_all_waiting. exact Hw.
Qed.

Lemma reachable_all_waiting context evs :
  all_waiting (run context evs createManager).
Proof. apply run_all_waiting. reflexivity. Qed.

Lemma watchCallback_promise err stats0 (m : Manager) d :
  promise_of (watchCallback err stats0 m) d
  = match promise_of m d with
    | Some o => Some o
    | None =>
        if Nat.eqb (count_occ Nat.eq_dec (waiting m) d) 0 then None
        else match deferreds m !! d with
             | Some _ => Some (outcome_of (status_of err stats0))
             | None => None
             end
    end.
Proof.
  unfold promise_of, watchCallback. simpl. rewrite fold_settle_lookup.
  destruct (deferreds m !! d) as [x|]; simpl.
  - rewrite promise_iter_settle. reflexivity.
  - destruct (Nat.eqb _ 0); reflexivity.
Qed.

(** A settled promise stays as it is, whatever happens to the manager. *)
Lemma step_promise_stable context (m : Manager) e d o :
  promise_of m d = Some o -> promise_of (step context m e) d = Some o.
Proof.
  intros Hp. destruct e; simpl; try exact Hp.
  - rewrite watchCallback_promise, Hp. reflexivity.
  - unfold addEntry. destruct (decide _); exact Hp.
  - unfold waitForDone. destruct (negb (running m)); simpl.
    + destruct (lastStatus m) as [[?|?]|]; exact Hp.
    + unfold promise_of in *. simpl.
      destruct (deferreds m !! d) as [x|] eqn:Hx; [|discriminate].
      rewrite lookup_app_l by (eapply lookup_lt_Some; exact Hx).
      rewrite Hx. exact Hp.
Qed.

Lemma run_promise_stable context evs (m : Manager) d o :
  promise_of m d = Some o -> promise_of (run context evs m) d = Some o.
Proof.
  revert m. induction evs as [|e evs IH]; intros m Hp; [exact Hp|].
  simpl. apply IH. apply step_promise_stable. exact Hp.
Qed.

Lemma all_waiting_elem (m : Manager) d :
  all_waiting m -> (d ∈ waiting m <-> d < length (deferreds m)).
Proof.
  intros Hw. rewrite Hw, list_elem_of_In, in_seq. lia.
Qed.

Lemma all_waiting_count (m : Manager) d :
  all_waiting m -> d ∈ waiting m -> count_occ Nat.eq_dec (waiting m) d = 1.
Proof.
  intros Hw Hin. apply list_elem_of_In in Hin.
  assert (Hnd : List.NoDup (waiting m)) by (rewrite Hw; apply seq_NoDup).
  pose proof (proj1 (NoDup_count_occ Nat.eq_dec (waiting m)) Hnd d) as Hle.
  apply (count_occ_In Nat.eq_dec) in Hin. lia.
Qed.

End Waiters.

Section Coordinator.
Context {node_path : NodePath}.

(** C2, as the code has it: a call of [waitForDone] while [running] is true
    appends a new pending waiter to [waiting]; the watch callback gives every
    waiter that is still pending the outcome of that build, the same for all
    of them, so that no waiter in the collection is left pending; a promise
    that is settled keeps its outcome whatever happens later.  The collection
    is not cleared: the callback leaves [waiting] as it was and calls
    [resolve] or [reject] once more on every waiter in it, those of earlier
    generations included. *)
Theorem waiters_settled_once context evs err stats0 :
  let m := run context evs createManager in
  let m' := watchCallback err stats0 m in
  (running m = true ->
   exists d,
     fst (waitForDone m) = WaitPending d
     /\ (d ∉ waiting m)
     /\ waiting (snd (waitForDone m)) = (waiting m ++ [d])%list
     /\ promise_of (snd (waitForDone m)) d = None)
  /\ (forall d,
        d ∈ waiting m ->
        promise_of m d = None ->
        promise_of m' d = Some (outcome_of (status_of err stats0)))
  /\ (forall d, d ∈ waiting m' -> promise_of m' d <> None)
  /\ (forall d o evs',
        promise_of m d = Some o ->
        promise_of (run context evs' m) d = Some o)
  /\ waiting m' = waiting m
  /\ (forall d, d ∈ waiting m -> calls_of m' d = S (calls_of m d)).
Proof.
  intros m m'.
  pose proof (reachable_all_waiting context evs) as Hw. fold m in Hw.
  assert (Hsettle : forall d,
    d ∈ waiting m ->
    promise_of m d = None ->
    promise_of m' d = Some (outcome_of (status_of err stats0))).
  { intros d Hin Hp. unfold m'. rewrite watchCallback_promise, Hp.
    rewrite (all_waiting_count m d Hw Hin). simpl.
    apply (all_waiting_elem m d Hw) in Hin.
    destruct (deferreds m !! d) eqn:Hd; [reflexivity|].
    apply lookup_ge_None in Hd. lia. }
  split; [|split; [exact Hsettle|split; [|split; [|split]]]].
  - intros Hr. exists (length (deferreds m)).
    unfold waitForDone, promise_of. rewrite Hr. simpl.
    split; [reflexivity|]. split.
    { rewrite (all_waiting_elem m _ Hw). lia. }
    split; [reflexivity|].
    rewrite lookup_app_r by lia. rewrite Nat.sub_diag. reflexivity.
  - intros d Hin Hnone.
    destruct (promise_of m d) as [o|] eqn:Hp.
    + pose proof (step_promise_stable context m
                    (EvWatchCallback err stats0) d o Hp) as Hs.
      simpl in Hs. fold m' in Hs. congruence.
    + rewrite (Hsettle d Hin Hp) in Hnone. discriminate.
  - intros d o evs' Hp. apply run_promise_stable. exact Hp.
  - reflexivity.
  - intros d Hin. unfold calls_of, m', watchCallback. simpl.
    rewrite fold_settle_lookup, (all_waiting_count m d Hw Hin).
    apply (all_waiting_elem m d Hw) in Hin.
    destruct (deferreds m !! d) eqn:Hd; [reflexivity|].
    apply lookup_ge_None in Hd. lia.
Qed.

Lemma run_lastStatus context evs (m : Manager) :
  lastStatus (run context evs m) = last_outcome evs (lastStatus m).
Proof.
  revert m. induction evs as [|e evs IH]; intros m; [reflexivity|].
  simpl. rewrite IH. destruct e; simpl; try reflexivity.
  - unfold addEntry. destruct (decide _); reflexivity.
  - unfold waitForDone. destruct (negb (running m)); simpl; [|reflexivity].
    destruct (lastStatus m) as [[?|?]|] eqn:E; simpl; rewrite E; reflexivity.
Qed.

(** C5: a call of [waitForDone] while [running] is false registers no waiter
    and changes nothing; it returns the stats of the last watch callback when
    that recorded a success, throws the error that callback recorded when it
    recorded a failure, and throws [No build status available] when no watch
    callback has happened yet. *)
Theorem waitForDone_not_running context evs :
  let m := run context evs createManager in
  running m = false ->
  waitForDone m
  = (match last_outcome evs None with
     | Some (StatusStats s) => WaitReturn s
     | Some (StatusError e) => WaitThrow e
     | None => WaitThrow (MkError "No build status available")
     end, m).
Proof.
  intros m Hr. unfold waitForDone. rewrite Hr. simpl.
  unfold m. rewrite run_lastStatus. simpl.
  destruct (last_outcome evs None) as [[s|e]|]; reflexivity.
Qed.

Lemma addEntry_registered context filename (m : Manager) :
  registered context m -> registered context (addEntry context filename m).
Proof.
  intros Hreg g Hg.
  destruct (decide (filename ∈ entries m)) as [Hin|Hnin].
  - rewrite addEntry_present in * by exact Hin. apply Hreg. exact Hg.
  - rewrite addEntry_new in * by exact Hnin. simpl in *.
    apply elem_of_app. apply elem_of_union in Hg as [Hg|Hg].
    + apply elem_of_singleton in Hg as ->. right. apply list_elem_of_singleton.
      reflexivity.
    + left. apply Hreg. exact Hg.
Qed.

Lemma step_registered context (m : Manager) e :
  registered context m -> registered context (step context m e).
Proof.
  intros Hreg. destruct e; simpl; try exact Hreg.
  - apply addEntry_registered. exact Hreg.
  - unfold waitForDone. destruct (negb (running m)); simpl; [|exact Hreg].
    destruct (lastStatus m) as [[?|?]|]; exact Hreg.
Qed.

Lemma run_registered context evs (m : Manager) :
  registered context m -> registered context (run context evs m).
Proof.
  revert m. induction evs as [|e evs IH]; intros m Hreg; [exact Hreg|].
  simpl. apply IH. apply step_registered. exact Hreg.
Qed.

(** C10: the identifier computed in [addEntry] and the one computed in
    [ssrLoadModule] are the same function of the context and the file name;
    and as [path.relative] gives for the resolved file name what it gives for
    the file name itself, the identifier that [ssrLoadModule] looks up in the
    build's mapping is the one under which its call of [addEntry] has the
    file registered with the compiler. *)
Theorem entry_key_is_lookup_key (api : Api) evs filename :
  api_manager api = run (api_context api) evs createManager ->
  path_relative (api_context api) (path_resolve [filename])
  = path_relative (api_context api) filename ->
  let relative := ssrLoadModule_relative (api_context api) filename in
  (forall context file,
      addEntry_relative context file = ssrLoadModule_relative context file)
  /\ addEntry_relative (api_context api) (path_resolve [filename]) = relative
  /\ (api_context api, relative, relative)
     ∈ entryPlugins (api_manager (ssrLoadModule_addEntry filename api)).
Proof.
  intros Hm Hrel relative.
  assert (Hkey : addEntry_relative (api_context api) (path_resolve [filename])
                 = relative).
  { unfold relative, addEntry_relative, ssrLoadModule_relative.
    rewrite Hrel. reflexivity. }
  split; [reflexivity|]. split; [exact Hkey|].
  simpl. rewrite <- Hkey.
  apply (addEntry_registered (api_context api) (path_resolve [filename])).
  - rewrite Hm. apply run_registered. intros g Hg. set_solver.
  - rewrite addEntry_entries. set_solver.
Qed.

End Coordinator.

(** ** The library kind *)

Section LibraryKind.
Context {node_path : NodePath} {host_loader : HostLoader}.

Lemma set_modCache_same (api : Api) : set_modCache (modCache api) api = api.
Proof. destruct api. reflexivity. Qed.

(** C6, as the code has it: a library kind other than [commonjs] and
    [module] is accepted at construction, which returns the API as for any
    other kind; the error [Unsupported library type] is thrown at load time,
    by every load that is not served from the cache, and it leaves the cache
    and the host as they were. *)
Theorem unsupported_kind_throws_at_load (o : Options) (kind : string) :
  Js.truthy (context o) = true ->
  output_library o = Some {| type := kind |} ->
  kind <> "" ->
  kind <> "commonjs" ->
  kind <> "module" ->
  lacks_contenthash (output_filename o) = false ->
  lacks_contenthash (output_chunkFilename o) = false ->
  exists api,
    createWebpackAPI o = Ok api
    /\ api_libraryType api = kind
    /\ (forall toLoad hash0 (cache : gmap string CacheEntry) h,
          ~ cache_hit cache toLoad hash0 ->
          load (api_libraryType api) toLoad hash0 cache h
          = (Throw (MkError ("Unsupported library type: " ++ kind)), cache, h))
    /\ (forall filename stats0 hash0 toLoad h,
          hasErrors stats0 = false ->
          hash (toJson stats0) = Some hash0 ->
          hash0 <> "" ->
          resolve_artifact (api_context api) filename (toJson stats0)
          = Ok toLoad ->
          ssrLoadModule_resume filename (Ok stats0) api h
          = (Throw (MkError ("Unsupported library type: " ++ kind)), api, h)).
Proof.
  intros Hc Hlib Hne Hcjs Hmod Hf Hk.
  assert (Hl : Js.truthy (type <$> output_library o) = true).
  { rewrite Hlib. apply truthy_Some. exists kind. split; [reflexivity|exact Hne]. }
  destruct (createWebpackAPI_Ok o Hc Hl Hf Hk)
    as (api & Hapi & Hkind & _ & _ & Hcache).
  rewrite Hlib in Hkind. simpl in Hkind.
  assert (Hload : forall toLoad hash0 (cache : gmap string CacheEntry) h,
    ~ cache_hit cache toLoad hash0 ->
    load (api_libraryType api) toLoad hash0 cache h
    = (Throw (MkError ("Unsupported library type: " ++ kind)), cache, h)).
  { intros toLoad hash0 cache h Hmiss.
    rewrite load_miss by exact Hmiss. rewrite Hkind.
    apply load_fresh_unsupported; assumption. }
  exists api. split; [exact Hapi|]. split; [exact Hkind|].
  split; [exact Hload|].
  intros filename stats0 hash0 toLoad h He Hh Hh0 Hres.
  rewrite (ssrLoadModule_resume_checked _ _ _ _ _ He Hh Hh0), Hres.
  rewrite Hload.
  - simpl. rewrite set_modCache_same. reflexivity.
  - rewrite Hcache. intros (c & Hc' & _). rewrite lookup_empty in Hc'.
    discriminate.
Qed.

End LibraryKind.

(** ** More on the coordinator *)

Section RunningFlag.
Context {node_path : NodePath}.

Lemma step_aborted context (m : Manager) e :
  aborted (step context m e) = aborted m.
Proof.
  destruct e; simpl; try reflexivity.
  - unfold addEntry. destruct (decide _); reflexivity.
  - unfold waitForDone. destruct (negb (running m)); simpl; [|reflexivity].
    destruct (lastStatus m) as [[?|?]|]; reflexivity.
Qed.

Lemma step_running context (m : Manager) e :
  aborted m = false ->
  running (step context m e) = last_signal [e] (running m).
Proof.
  intros Ha. destruct e; simpl; try reflexivity.
  - rewrite Ha. reflexivity.
  - unfold addEntry. destruct (decide _); reflexivity.
  - unfold waitForDone. destruct (negb (running m)); simpl; [|reflexivity].
    destruct (lastStatus m) as [[?|?]|]; reflexivity.
Qed.

Lemma last_signal_cons e evs flag :
  last_signal (e :: evs) flag = last_signal evs (last_signal [e] flag).
Proof. destruct e; reflexivity. Qed.

Lemma run_running context evs (m : Manager) :
  aborted m = false ->
  aborted (run context evs m) = false
  /\ running (run context evs m) = last_signal evs (running m).
Proof.
  revert m. induction evs as [|e evs IH]; intros m Ha; [split; auto|].
  simpl run. rewrite last_signal_cons, <- (step_running context m e Ha).
  apply IH. rewrite step_aborted. exact Ha.
Qed.

(** X1: the abort signal is never aborted, so the guard of the watch callback
    always lets it reset the flag: in every state the manager can reach,
    [running] is true exactly when the latest signal of the compiler was
    [watchRun] or [invalid]; [done] and the watch callback make it false,
    [addEntry] and [waitForDone] leave it alone. *)
Theorem running_follows_signals context evs :
  let m := run context evs createManager in
  aborted m = false
  /\ running m = last_signal evs false
  /\ (forall err stats0, running (watchCallback err stats0 m) = false).
Proof.
  intros m. destruct (run_running context evs createManager eq_refl)
    as [Ha Hr]. fold m in Ha, Hr.
  split; [exact Ha|]. split; [exact Hr|].
  intros err stats0. simpl. rewrite Ha. reflexivity.
Qed.

End RunningFlag.

Section RegistryCounts.
Context {node_path : NodePath}.

Lemma run_entries context evs (m : Manager) :
  entries (run context evs m) = list_to_set (added evs) ∪ entries m.
Proof.
  revert m. induction evs as [|e evs IH]; intros m; simpl.
  - symmetry. apply (left_id_L ∅ (∪)).
  - rewrite IH. destruct e; simpl; try reflexivity.
    + rewrite addEntry_entries.
      rewrite (comm_L (∪) {[filename]} (list_to_set (added evs))).
      apply (assoc_L (∪)).
    + unfold waitForDone. destruct (negb (running m)); simpl; [|reflexivity].
      destruct (lastStatus m) as [[?|?]|]; reflexivity.
Qed.

Lemma step_counted context (m : Manager) e :
  counted m -> counted (step context m e).
Proof.
  unfold counted. intros [Hi Hp]. destruct e; simpl; try (split; assumption).
  - destruct (decide (filename ∈ entries m)) as [Hin|Hnin].
    + rewrite addEntry_present by exact Hin. split; assumption.
    + rewrite addEntry_new by exact Hnin. simpl.
      rewrite length_app, size_union by (apply disjoint_singleton_l; exact Hnin).
      rewrite size_singleton. simpl. lia.
  - unfold waitForDone. destruct (negb (running m)); simpl;
      [|split; assumption].
    destruct (lastStatus m) as [[?|?]|]; split; assumption.
Qed.

Lemma run_counted context evs (m : Manager) :
  counted m -> counted (run context evs m).
Proof.
  revert m. induction evs as [|e evs IH]; intros m Hc; [exact Hc|].
  simpl. apply IH. apply step_counted. exact Hc.
Qed.

(** X2: in every state the manager can reach, the entries are exactly the
    files that were given to [addEntry], and the number of [EntryPlugin]s
    applied and the number of calls of [invalidate] both equal the number of
    distinct entries: never two registrations or two rebuilds for one
    file. *)
Theorem one_plugin_and_invalidation_per_entry context evs :
  let m := run context evs createManager in
  entries m = list_to_set (added evs)
  /\ invalidations m = size (entries m)
  /\ length (entryPlugins m) = size (entries m).
Proof.
  intros m. split.
  - unfold m. rewrite run_entries. apply (right_id_L ∅ (∪)).
  - apply run_counted. split; reflexivity.
Qed.

End RegistryCounts.

Section EntryPlugins.
Context {node_path : NodePath}.

Lemma prefix_empty (s : string) : String.prefix "" s = true.
Proof. destruct s; reflexivity. Qed.

Lemma includes_char_cons (x c : ascii) (t : string) :
  Js.includes (String c t) (String x "")
  = Ascii.eqb x c || Js.includes t (String x "").
Proof.
  cbn [Js.includes]. f_equal. unfold Js.startsWith. simpl.
  destruct (ascii_dec x c) as [->|Hne].
  - rewrite prefix_empty, Ascii.eqb_refl. reflexivity.
  - symmetry. apply Ascii.eqb_neq. exact Hne.
Qed.

Lemma replace_backslashes_none (s : string) :
  Js.includes (Js.replace_backslashes s) "\" = false.
Proof.
  induction s as [|c t IH]; [reflexivity|].
  cbn [Js.replace_backslashes]. rewrite includes_char_cons, IH, orb_false_r.
  destruct (Ascii.eqb c "\"%char) eqn:Hc; [reflexivity|].
  rewrite Ascii.eqb_sym. exact Hc.
Qed.

Lemma addEntry_relative_shape context filename :
  (Js.startsWith (addEntry_relative context filename) "./" = true
   \/ Js.startsWith (addEntry_relative context filename) "../" = true)
  /\ Js.includes (addEntry_relative context filename) "\" = false.
Proof.
  split; [exact (relative_convention context filename)|].
  unfold addEntry_relative.
  set (r := Js.replace_backslashes (path_relative context filename)).
  assert (Hr : Js.includes r "\" = false) by apply replace_backslashes_none.
  destruct (negb (Js.startsWith r "./") && negb (Js.startsWith r "../"));
    [|exact Hr].
  change ("./" ++ r) with (String "."%char (String "/"%char r)).
  rewrite !includes_char_cons, Hr. reflexivity.
Qed.

Lemma step_plugins_of_entries context (m : Manager) e :
  plugins_of_entries context m -> plugins_of_entries context (step context m e).
Proof.
  unfold plugins_of_entries. intros Hs. destruct e; simpl; try exact Hs.
  - destruct (decide (filename ∈ entries m)) as [Hin|Hnin].
    + rewrite addEntry_present by exact Hin. exact Hs.
    + rewrite addEntry_new by exact Hnin. simpl. intros p Hp.
      apply elem_of_app in Hp as [Hp|Hp].
      * destruct (Hs p Hp) as (f & Hf & Heq). exists f.
        split; [apply elem_of_union; right; exact Hf | exact Heq].
      * apply list_elem_of_singleton in Hp. exists filename.
        split; [apply elem_of_union; left; apply elem_of_singleton;
                reflexivity | exact Hp].
  - unfold waitForDone. destruct (negb (running m)); simpl; [|exact Hs].
    destruct (lastStatus m) as [[?|?]|]; exact Hs.
Qed.

Lemma run_plugins_of_entries context evs (m : Manager) :
  plugins_of_entries context m -> plugins_of_entries context (run context evs m).
Proof.
  revert m. induction evs as [|e evs IH]; intros m Hs; [exact Hs|].
  simpl. apply IH. apply step_plugins_of_entries. exact Hs.
Qed.

(** X3: every [EntryPlugin] the manager has applied was made for one of its
    entries, with the context of the compiler, and with the same identifier as
    entry and as name; that identifier starts with [./] or [../] and has no
    backslash in it. *)
Theorem entry_plugins_well_formed context evs c e n :
  let m := run context evs createManager in
  (c, e, n) ∈ entryPlugins m ->
  c = context
  /\ n = e
  /\ (exists filename,
        filename ∈ entries m /\ e = addEntry_relative context filename)
  /\ (Js.startsWith e "./" = true \/ Js.startsWith e "../" = true)
  /\ Js.includes e "\" = false.
Proof.
  intros m Hin.
  assert (Hs : plugins_of_entries context m).
  { apply run_plugins_of_entries. intros p Hp. simpl in Hp.
    apply elem_of_nil in Hp. contradiction. }
  destruct (Hs _ Hin) as (f & Hf & Heq). injection Heq as -> -> ->.
  split; [reflexivity|]. split; [reflexivity|].
  split; [exists f; split; [exact Hf|reflexivity]|].
  apply addEntry_relative_shape.
Qed.

End EntryPlugins.

Section WaitersAgain.
Context {node_path : NodePath}.

Lemma step_deferreds_length context (m : Manager) e :
  length (deferreds m) <= length (deferreds (step context m e)).
Proof.
  destruct e; simpl; try lia.
  - rewrite fold_settle_length. lia.
  - unfold addEntry. destruct (decide _); simpl; lia.
  - unfold waitForDone. destruct (negb (running m)); simpl.
    + destruct (lastStatus m) as [[?|?]|]; simpl; lia.
    + rewrite length_app. lia.
Qed.

Lemma step_calls context (m : Manager) e d :
  all_waiting m ->
  d ∈ waiting m ->
  calls_of (step context m e) d = calls_of m d + callbacks [e].
Proof.
  intros Hw Hin. pose proof (proj1 (all_waiting_elem m d Hw) Hin) as Hlt.
  destruct e; simpl; unfold calls_of; simpl; try lia.
  - rewrite fold_settle_lookup, (all_waiting_count m d Hw Hin).
    destruct (deferreds m !! d) eqn:Hd; simpl; [lia|].
    apply lookup_ge_None in Hd. lia.
  - unfold addEntry. destruct (decide _); simpl; lia.
  - unfold waitForDone. destruct (negb (running m)); simpl.
    + destruct (lastStatus m) as [[?|?]|]; simpl; lia.
    + rewrite lookup_app_l by exact Hlt. lia.
Qed.

Lemma step_waiting_elem context (m : Manager) e d :
  all_waiting m -> d ∈ waiting m -> d ∈ waiting (step context m e).
Proof.
  intros Hw Hin.
  apply (all_waiting_elem _ d (step_all_waiting context m e Hw)).
  apply (all_waiting_elem m d Hw) in Hin.
  pose proof (step_deferreds_length context m e). lia.
Qed.

Lemma callbacks_cons e evs : callbacks (e :: evs) = callbacks [e] + callbacks evs.
Proof. destruct e; reflexivity. Qed.

Lemma run_calls context evs (m : Manager) d :
  all_waiting m ->
  d ∈ waiting m ->
  d ∈ waiting (run context evs m)
  /\ calls_of (run context evs m) d = calls_of m d + callbacks evs.
Proof.
  revert m. induction evs as [|e evs IH]; intros m Hw Hin.
  - simpl. split; [exact Hin | lia].
  - simpl run.
    destruct (IH (step context m e) (step_all_waiting context m e Hw)
                (step_waiting_elem context m e d Hw Hin)) as [Hin' Hc].
    split; [exact Hin'|].
    rewrite Hc, (step_calls context m e d Hw Hin), (callbacks_cons e evs).
    lia.
Qed.

(** X4: a waiter is never taken out of [waiting]: whatever happens after its
    registration it is still there, and [resolve] or [reject] is called on it
    once by each watch callback that follows, so as often as there are
    builds. *)
Theorem waiters_kept_and_settled_again context evs0 evs d :
  let m := run context evs0 createManager in
  d ∈ waiting m ->
  d ∈ waiting (run context evs m)
  /\ calls_of (run context evs m) d = calls_of m d + callbacks evs.
Proof.
  intros m Hin. apply run_calls; [|exact Hin].
  apply reachable_all_waiting.
Qed.

Lemma watchCallback_settles_pending context evs err stats0 d :
  let m := run context evs createManager in
  d ∈ waiting m ->
  promise_of m d = None ->
  promise_of (watchCallback err stats0 m) d
  = Some (outcome_of (status_of err stats0)).
Proof.
  intros m Hin Hp.
  pose proof (reachable_all_waiting context evs) as Hw. fold m in Hw.
  rewrite watchCallback_promise, Hp, (all_waiting_count m d Hw Hin). simpl.
  apply (all_waiting_elem m d Hw) in Hin.
  destruct (deferreds m !! d) eqn:Hd; [reflexivity|].
  apply lookup_ge_None in Hd. lia.
Qed.

(** X5: the waiters of a build and the callers that come after it get the
    same answer: the outcome the watch callback gives to the pending waiters
    is the one that a call of [waitForDone] right after the callback returns
    or throws at once, without registering a waiter. *)
Theorem waiters_and_late_callers_agree context evs err stats0 :
  let m := run context evs createManager in
  let m' := watchCallback err stats0 m in
  let o := outcome_of (status_of err stats0) in
  (forall d,
      d ∈ waiting m -> promise_of m d = None -> promise_of m' d = Some o)
  /\ waitForDone m' = (wait_of o, m').
Proof.
  intros m m' o. split.
  - intros d. apply watchCallback_settles_pending.
  - destruct (run_running context evs createManager eq_refl) as [Ha _].
    fold m in Ha. unfold waitForDone, m', o. simpl. rewrite Ha. simpl.
    destruct (status_of err stats0); reflexivity.
Qed.

End WaitersAgain.

(** ** More on the API *)

Section Calls.
Context {node_path : NodePath} {host_loader : HostLoader}.

Lemma store_loaded_result toLoad hash0 loaded (cache : gmap string CacheEntry)
    r cache' :
  store_loaded toLoad hash0 loaded cache = (r, cache') ->
  r = loaded
  /\ (forall e, r = Throw e -> cache' = cache)
  /\ (forall loaded_mod,
        r = Ok loaded_mod ->
        cache' !! toLoad
        = Some {| cached_hash := hash0; cached_mod := loaded_mod |})
  /\ (forall k, k <> toLoad -> cache' !! k = cache !! k).
Proof.
  destruct loaded as [loaded_mod|e]; simpl; intros [= <- <-].
  - split; [reflexivity|]. split; [discriminate|]. split.
    + intros ? [= <-]. apply lookup_insert_eq.
    + intros k Hk. apply lookup_insert_ne. congruence.
  - split; [reflexivity|]. split; [reflexivity|]. split; [discriminate|].
    reflexivity.
Qed.

(** What a load leaves behind. *)
Lemma load_result libraryType toLoad hash0 (cache : gmap string CacheEntry) h
    r cache' h' :
  load libraryType toLoad hash0 cache h = (r, cache', h') ->
  (forall e, r = Throw e -> cache' = cache)
  /\ (forall loaded_mod,
        r = Ok loaded_mod ->
        cache' !! toLoad
        = Some {| cached_hash := hash0; cached_mod := loaded_mod |})
  /\ (forall k, k <> toLoad -> cache' !! k = cache !! k).
Proof.
  unfold load.
  assert (Hfresh :
    load_fresh libraryType toLoad hash0 cache h = (r, cache', h') ->
    (forall e, r = Throw e -> cache' = cache)
    /\ (forall loaded_mod,
          r = Ok loaded_mod ->
          cache' !! toLoad
          = Some {| cached_hash := hash0; cached_mod := loaded_mod |})
    /\ (forall k, k <> toLoad -> cache' !! k = cache !! k)).
  { unfold load_fresh.
    destruct (String.eqb libraryType "commonjs").
    - destruct (host_require toLoad h) as [loaded h1].
      destruct (store_loaded toLoad hash0 loaded cache) as [r1 c1] eqn:Hs.
      intros [= <- <- <-].
      destruct (store_loaded_result _ _ _ _ _ _ Hs) as (_ & H1 & H2 & H3).
      auto.
    - destruct (String.eqb libraryType "module").
      + destruct (host_import toLoad h) as [loaded h1].
        destruct (store_loaded toLoad hash0 loaded cache) as [r1 c1] eqn:Hs.
        intros [= <- <- <-].
        destruct (store_loaded_result _ _ _ _ _ _ Hs) as (_ & H1 & H2 & H3).
        auto.
      + intros [= <- <- <-]. split; [reflexivity|].
        split; [discriminate | reflexivity]. }
  destruct (cache !! toLoad) as [c|] eqn:Hc; [|exact Hfresh].
  destruct (String.eqb (cached_hash c) hash0) eqn:Heq; [|exact Hfresh].
  intros [= <- <- <-]. split; [reflexivity|]. split; [|reflexivity].
  intros loaded_mod [= <-]. rewrite Hc. apply String.eqb_eq in Heq.
  destruct c. simpl in *. subst. reflexivity.
Qed.

Lemma ssrLoadModule_resume_inv filename awaited api h r api' h' :
  ssrLoadModule_resume filename awaited api h = (r, api', h') ->
  ((exists e, r = Throw e) /\ api' = api /\ h' = h)
  \/ reached_load filename awaited api h r api' h'.
Proof.
  destruct awaited as [stats0|e].
  2:{ simpl. intros [= <- <- <-]. left. eauto. }
  destruct (hasErrors stats0) eqn:He.
  { rewrite ssrLoadModule_resume_errors by exact He.
    intros [= <- <- <-]. left. eauto. }
  destruct (Js.truthy (hash (toJson stats0))) eqn:Ht.
  2:{ rewrite ssrLoadModule_resume_no_hash by assumption.
      intros [= <- <- <-]. left. eauto. }
  apply truthy_Some in Ht as (hash0 & Hh & Hne).
  rewrite (ssrLoadModule_resume_checked _ _ _ _ _ He Hh Hne).
  destruct (resolve_artifact _ _ _) as [toLoad|e] eqn:Hres.
  2:{ intros [= <- <- <-]. left. eauto. }
  destruct (load _ _ _ _ _) as [[r1 c1] h1] eqn:Hload. simpl.
  intros [= <- <- <-]. right.
  exists stats0, hash0, toLoad, c1. repeat split; assumption.
Qed.

Lemma set_modCache_lookup cache (api : Api) :
  modCache (set_modCache cache api) = cache.
Proof. reflexivity. Qed.

(** What a call may change. *)
Lemma ssrLoadModule_resume_frame filename awaited api h r api' h' :
  ssrLoadModule_resume filename awaited api h = (r, api', h') ->
  api' = set_modCache (modCache api') api
  /\ (forall e, r = Throw e -> api' = api)
  /\ (forall k,
        modCache api' !! k <> modCache api !! k ->
        exists stats0 loaded,
          awaited = Ok stats0
          /\ resolve_artifact (api_context api) filename (toJson stats0) = Ok k
          /\ r = Ok loaded).
Proof.
  intros Hcall.
  destruct (ssrLoadModule_resume_inv _ _ _ _ _ _ _ Hcall)
    as [([e ->] & -> & ->) | Hreached].
  - split; [symmetry; apply set_modCache_same|].
    split; [reflexivity|]. intros k Hk. contradiction.
  - destruct Hreached
      as (stats0 & hash0 & toLoad & cache' & -> & He & Hh & Hne & Hres
          & Hload & ->).
    destruct (load_result _ _ _ _ _ _ _ _ Hload) as (Hthrow & Hok & Hother).
    split; [reflexivity|]. split.
    + intros e Hr. rewrite (Hthrow e Hr). apply set_modCache_same.
    + intros k Hk. rewrite set_modCache_lookup in Hk.
      destruct (decide (k = toLoad)) as [->|Hne'].
      * destruct r as [loaded|e].
        -- exists stats0, loaded. auto.
        -- rewrite (Hthrow e eq_refl) in Hk. contradiction.
      * rewrite (Hother k Hne') in Hk. contradiction.
Qed.

(** X6: a call changes nothing of the API but the module cache, and of the
    cache at most the entry of the artifact it resolved, and that only when it
    returns a module: a call that throws, for whatever reason, leaves the API
    exactly as it was. *)
Theorem ssrLoadModule_touches_one_entry filename awaited api h r api' h' :
  ssrLoadModule_resume filename awaited api h = (r, api', h') ->
  api' = set_modCache (modCache api') api
  /\ (forall e, r = Throw e -> api' = api)
  /\ (forall k,
        modCache api' !! k <> modCache api !! k ->
        exists stats0 loaded,
          awaited = Ok stats0
          /\ resolve_artifact (api_context api) filename (toJson stats0) = Ok k
          /\ r = Ok loaded).
Proof. apply ssrLoadModule_resume_frame. Qed.

(** A second call for the same build. *)
Lemma ssrLoadModule_resume_again filename stats0 api h loaded
    api' h' :
  ssrLoadModule_resume filename (Ok stats0) api h = (Ok loaded, api', h') ->
  forall h2,
    ssrLoadModule_resume filename (Ok stats0) api' h2 = (Ok loaded, api', h2).
Proof.
  intros Hcall h2.
  destruct (ssrLoadModule_resume_inv _ _ _ _ _ _ _ Hcall)
    as [([e He] & _) | Hreached]; [discriminate|].
  destruct Hreached
    as (s & hash0 & toLoad & cache' & [= <-] & He & Hh & Hne & Hres
        & Hload & ->).
  destruct (load_result _ _ _ _ _ _ _ _ Hload) as (_ & Hok & _).
  rewrite (ssrLoadModule_resume_checked _ _ _ _ _ He Hh Hne). simpl.
  rewrite Hres.
  rewrite (load_hit _ _ _ _ _ _ (Hok loaded eq_refl) eq_refl). simpl.
  reflexivity.
Qed.

(** X7: when a call has returned a module for a build, a call for the same
    file and the same build returns that same module, without asking the host
    and without changing the API: the calls that waited for one build share
    one load. *)
Theorem ssrLoadModule_same_build_same_module filename stats0 api h loaded
    api' h' :
  ssrLoadModule_resume filename (Ok stats0) api h = (Ok loaded, api', h') ->
  forall h2,
    ssrLoadModule_resume filename (Ok stats0) api' h2 = (Ok loaded, api', h2).
Proof. apply ssrLoadModule_resume_again. Qed.

Lemma set_manager_same (api : Api) : set_manager (api_manager api) api = api.
Proof. destruct api. reflexivity. Qed.

Lemma waitForDone_returns (m m' : Manager) stats0 :
  waitForDone m = (WaitReturn stats0, m') ->
  m' = m /\ running m = false /\ lastStatus m = Some (StatusStats stats0).
Proof.
  unfold waitForDone. destruct (running m); simpl; [discriminate|].
  destruct (lastStatus m) as [[s|e]|]; intros [= <- <-] || intros [=].
  auto.
Qed.

Lemma ssrLoadModule_begin_entry reaction filename api :
  path_resolve [filename]
  ∈ entries (api_manager (snd (ssrLoadModule_begin reaction filename api))).
Proof.
  unfold ssrLoadModule_begin.
  set (file := path_resolve [filename]).
  set (m1 := addEntry (api_context api) file (api_manager api)).
  assert (H1 : file ∈ entries m1).
  { unfold m1. rewrite addEntry_entries. apply elem_of_union. left.
    apply elem_of_singleton. reflexivity. }
  set (m2 := if decide (file ∈ entries (api_manager api)) then m1
             else run (api_context api) reaction m1).
  assert (H2 : file ∈ entries m2).
  { unfold m2. destruct (decide _); [exact H1|].
    apply run_entries_mono. exact H1. }
  pose proof (step_entries_mono (api_context api) m2 EvWaitForDone file H2)
    as H3. simpl in H3.
  destruct (waitForDone m2) as [w m3]. exact H3.
Qed.

(** X8: when a call of [ssrLoadModule] has run to its end and returned a
    module, the next call for the same file, with no event of the compiler in
    between, runs to its end as well, returns the same module and changes
    neither the API nor the host: it registers nothing, calls neither
    [invalidate] nor the loader. *)
Theorem ssrLoadModule_twice reaction reaction' filename api h loaded api1 h1 :
  ssrLoadModule reaction filename api h = inl (Ok loaded, api1, h1) ->
  ssrLoadModule reaction' filename api1 h1 = inl (Ok loaded, api1, h1).
Proof.
  unfold ssrLoadModule. intros Hfirst.
  pose proof (ssrLoadModule_begin_entry reaction filename api) as Hentry.
  destruct (ssrLoadModule_begin reaction filename api) as [w apib] eqn:Hbegin.
  simpl in Hentry.
  destruct w as [stats0|e|d]; [| |discriminate].
  2:{ simpl in Hfirst. discriminate. }
  assert (Hresume : ssrLoadModule_resume filename (Ok stats0) apib h
                    = (Ok loaded, api1, h1)).
  { change (@inl _ (nat * Api)
              (ssrLoadModule_resume filename (Ok stats0) apib h)
            = inl (Ok loaded, api1, h1)) in Hfirst.
    congruence. }
  clear Hfirst.
  assert (Hwait : waitForDone (api_manager apib)
                  = (WaitReturn stats0, api_manager apib)).
  { unfold ssrLoadModule_begin in Hbegin.
    destruct (waitForDone _) as [w m3] eqn:Hw in Hbegin.
    injection Hbegin as -> <-. simpl.
    destruct (waitForDone_returns _ _ _ Hw) as (-> & _ & _). exact Hw. }
  destruct (ssrLoadModule_resume_frame _ _ _ _ _ _ _ Hresume)
    as (Hapi1 & _ & _).
  assert (Hm : api_manager api1 = api_manager apib)
    by (rewrite Hapi1; reflexivity).
  assert (Hc : api_context api1 = api_context apib)
    by (rewrite Hapi1; reflexivity).
  unfold ssrLoadModule_begin.
  rewrite Hm, Hc.
  rewrite (addEntry_present _ _ _ Hentry).
  destruct (decide _) as [_|Hn]; [|contradiction].
  rewrite Hwait. rewrite <- Hm, set_manager_same.
  f_equal. apply (ssrLoadModule_resume_again _ _ _ _ _ _ _ Hresume).
Qed.

End Calls.

Section Suspended.
Context {node_path : NodePath} {host_loader : HostLoader}.

Lemma last_signal_true reaction flag :
  last_signal reaction false = true -> last_signal reaction flag = true.
Proof.
  revert flag. induction reaction as [|e evs IH]; intros flag; simpl.
  - discriminate.
  - destruct e; auto.
Qed.

Lemma run_deferreds_length context evs (m : Manager) :
  length (deferreds m) <= length (deferreds (run context evs m)).
Proof.
  revert m. induction evs as [|e evs IH]; intros m; simpl; [lia|].
  pose proof (step_deferreds_length context m e).
  pose proof (IH (step context m e)). lia.
Qed.

Lemma run_app context evs1 evs2 (m : Manager) :
  run context (evs1 ++ evs2) m = run context evs2 (run context evs1 m).
Proof. apply fold_left_app. Qed.

Lemma reachable_registered context evs :
  registered context (run context evs createManager).
Proof.
  apply run_registered. intros g Hg. simpl in Hg.
  apply not_elem_of_empty in Hg. contradiction.
Qed.

(** X9: a call for a file that is not an entry yet, during which the compiler
    signals [invalid] or [watchRun] last, is not answered with the outcome of
    an earlier build: it makes the file an entry with its [EntryPlugin] and
    is suspended on a new waiter, whose promise is pending. *)
Theorem ssrLoadModule_new_entry_waits reaction filename api evs :
  api_manager api = run (api_context api) evs createManager ->
  path_resolve [filename] ∉ entries (api_manager api) ->
  last_signal reaction false = true ->
  exists d api',
    ssrLoadModule_begin reaction filename api = (WaitPending d, api')
    /\ (d ∉ waiting (api_manager api))
    /\ d ∈ waiting (api_manager api')
    /\ promise_of (api_manager api') d = None
    /\ path_resolve [filename] ∈ entries (api_manager api')
    /\ (api_context api,
        addEntry_relative (api_context api) (path_resolve [filename]),
        addEntry_relative (api_context api) (path_resolve [filename]))
       ∈ entryPlugins (api_manager api').
Proof.
  intros Hm Hnew Hsig.
  set (context := api_context api) in *.
  set (file := path_resolve [filename]) in *.
  set (m2 := run context (evs ++ EvAddEntry file :: reaction) createManager).
  assert (Hm2 : m2 = run context reaction
                       (addEntry context file (api_manager api))).
  { unfold m2. rewrite run_app, Hm. reflexivity. }
  destruct (run_running context (evs ++ EvAddEntry file :: reaction)
              createManager eq_refl) as [_ Hr]. fold m2 in Hr.
  assert (Hrun : running m2 = true).
  { rewrite Hr. simpl. generalize false at 1. clear -Hsig.
    induction evs as [|e evs IH]; intros flag; simpl.
    - apply last_signal_true. exact Hsig.
    - destruct e; apply IH. }
  pose proof (reachable_all_waiting context
                (evs ++ EvAddEntry file :: reaction)) as Hw2. fold m2 in Hw2.
  pose proof (reachable_all_waiting context evs) as Hw. rewrite <- Hm in Hw.
  assert (Hlen : length (deferreds (api_manager api))
                 <= length (deferreds m2)).
  { rewrite Hm2.
    etransitivity; [|apply run_deferreds_length].
    unfold addEntry. destruct (decide _); simpl; lia. }
  set (m3 := snd (waitForDone m2)).
  assert (Hwait : waitForDone m2 = (WaitPending (length (deferreds m2)), m3)).
  { unfold m3, waitForDone. rewrite Hrun. reflexivity. }
  assert (Hm3 : m3 = run context
                       (evs ++ EvAddEntry file :: reaction ++ [EvWaitForDone])
                       createManager).
  { change (evs ++ EvAddEntry file :: reaction ++ [EvWaitForDone])%list
      with (evs ++ (EvAddEntry file :: reaction) ++ [EvWaitForDone])%list.
    rewrite app_assoc, run_app. reflexivity. }
  assert (Hfile : file ∈ entries m3).
  { unfold m3.
    apply (step_entries_mono context m2 EvWaitForDone).
    rewrite Hm2. apply run_entries_mono. rewrite addEntry_entries.
    apply elem_of_union. left. apply elem_of_singleton. reflexivity. }
  exists (length (deferreds m2)), (set_manager m3 api).
  split.
  { unfold ssrLoadModule_begin. fold context file.
    destruct (decide (file ∈ entries (api_manager api))) as [Hin|_];
      [contradiction|].
    rewrite <- Hm2, Hwait. reflexivity. }
  split.
  { rewrite (all_waiting_elem _ _ Hw). lia. }
  simpl.
  assert (Hw3 : waiting m3 = (waiting m2 ++ [length (deferreds m2)])%list
                /\ deferreds m3 = (deferreds m2 ++ [new_Deferred])%list).
  { unfold m3, waitForDone. rewrite Hrun. simpl. auto. }
  destruct Hw3 as [Hw3 Hd3].
  split.
  { rewrite Hw3. apply elem_of_app. right. apply list_elem_of_singleton.
    reflexivity. }
  split.
  { unfold promise_of. rewrite Hd3, lookup_app_r by lia.
    rewrite Nat.sub_diag. reflexivity. }
  split; [exact Hfile|].
  rewrite Hm3 in Hfile |- *. apply reachable_registered. exact Hfile.
Qed.



(** X11: the API that [createWebpackAPI] returns keeps the context and the
    library kind of the configuration, both not empty; the entries of the
    configuration are replaced by the one no-op entry and none of them is an
    entry of the manager, which starts without entries, plugins or cache;
    and the check of the context at the start of [createManager] cannot fail
    there. *)
Theorem createWebpackAPI_result (o : Options) (api : Api) :
  createWebpackAPI o = Ok api ->
  context o = Some (api_context api)
  /\ api_context api <> ""
  /\ type <$> output_library o = Some (api_libraryType api)
  /\ api_libraryType api <> ""
  /\ entry (api_options api) = EntryNoop (path_resolve [dirname; "./noop.js"])
  /\ context (api_options api) = context o
  /\ createManager_checked (api_options api) = Ok (api_manager api)
  /\ entries (api_manager api) = ∅
  /\ entryPlugins (api_manager api) = []
  /\ modCache api = ∅.
Proof.
  unfold createWebpackAPI.
  destruct (Js.truthy (context o)) eqn:Hc; simpl; [|discriminate].
  destruct (Js.truthy (type <$> output_library o)) eqn:Hl; simpl;
    [|discriminate].
  destruct (lacks_contenthash (output_filename o)
            || lacks_contenthash (output_chunkFilename o)); [discriminate|].
  intros [= <-]. simpl.
  unfold createManager_checked. simpl. rewrite Hc. simpl.
  apply truthy_Some in Hc as (c & Hc1 & Hc2).
  apply truthy_Some in Hl as (l & Hl1 & Hl2).
  rewrite Hc1, Hl1. simpl.
  repeat split; assumption.
Qed.

End Suspended.

Section Eviction.
Context {node_path : NodePath} {host_loader : HostLoader}.

(** X12: the module cache never loses an entry: whatever a call does and
    however it ends, every artifact that had an entry before the call has one
    after it, so the entries of the artifacts of earlier builds stay for as
    long as the API lives. *)
Theorem modCache_never_evicts filename awaited api h r api' h' k :
  ssrLoadModule_resume filename awaited api h = (r, api', h') ->
  is_Some (modCache api !! k) ->
  is_Some (modCache api' !! k).
Proof.
  intros Hcall Hk.
  destruct (ssrLoadModule_resume_inv _ _ _ _ _ _ _ Hcall)
    as [(_ & -> & _) | Hreached]; [exact Hk|].
  destruct Hreached
    as (stats0 & hash0 & toLoad & cache' & -> & He & Hh & Hne & Hres
        & Hload & ->).
  destruct (load_result _ _ _ _ _ _ _ _ Hload) as (Hthrow & Hok & Hother).
  rewrite set_modCache_lookup.
  destruct (decide (k = toLoad)) as [->|Hne'].
  - destruct r as [loaded|e].
    + rewrite (Hok loaded eq_refl). eauto.
    + rewrite (Hthrow e eq_refl). exact Hk.
  - rewrite (Hother k Hne'). exact Hk.
Qed.

End Eviction.

(** * Examples *)

Example resolve_example :
  Example.resolve ["/work/dist"; "a.1.cjs"] = "/work/dist/a.1.cjs"
  /\ Example.resolve ["src/../src/./a.ts"] = "/work/src/a.ts"
  /\ Example.relative "/work" "/work/src/a.ts" = "src/a.ts"
  /\ Example.relative "/work" "/lib/b.ts" = "../lib/b.ts"
  /\ Example.relative "/work" "src/a.ts" = "src/a.ts".
Proof. repeat split; vm_compute; reflexivity. Qed.

Example createWebpackAPI_example :
  createWebpackAPI (Example.options "commonjs") = Ok (Example.api "commonjs").
Proof. vm_compute. reflexivity. Qed.

(** C6 fails as stated: with the library kind [umd] the construction returns
    the API, and the error comes from a later load. *)
Lemma umd_accepted_at_construction :
  createWebpackAPI (Example.options "umd") = Ok (Example.api "umd")
  /\ ssrLoadModule_resume "/work/src/a.ts" (Ok (Example.stats "h1"))
       (Example.api "umd") []
     = (Throw (MkError "Unsupported library type: umd"), Example.api "umd", []).
Proof. split; vm_compute; reflexivity. Qed.

Lemma empty_cache_miss (toLoad hash0 : string) :
  ~ cache_hit (∅ : gmap string CacheEntry) toLoad hash0.
Proof. intros (c & Hc & _). rewrite lookup_empty in Hc. discriminate. Qed.

Lemma unsupported_kind_throws_at_load_witness :
  exists api,
    createWebpackAPI (Example.options "umd") = Ok api
    /\ api_libraryType api = "umd"
    /\ load (api_libraryType api) "/work/dist/a.h1.cjs" "h1" ∅ []
       = (Throw (MkError "Unsupported library type: umd"), ∅, []).
Proof.
  destruct (unsupported_kind_throws_at_load (Example.options "umd") "umd")
    as (api & Hapi & Hkind & Hload & _); try reflexivity; try discriminate.
  exists api. split; [exact Hapi|]. split; [exact Hkind|].
  apply Hload. apply empty_cache_miss.
Defined.

(** C2 fails as stated: after the settlement of the first build the waiter
    is still in [waiting], and the settlement of the second build calls
    [resolve] on it a second time (its promise keeps the first outcome). *)
Lemma waiting_never_cleared :
  let m1 := run "/work"
              [EvWatchRun; EvWaitForDone; EvDone;
               EvWatchCallback None (Some (Example.stats "h1"))]
              createManager in
  let m2 := run "/work"
              [EvInvalid; EvWaitForDone; EvDone;
               EvWatchCallback None (Some (Example.stats "h2"))]
              m1 in
  waiting m1 = [0]
  /\ calls_of m1 0 = 1
  /\ waiting m2 = [0; 1]
  /\ calls_of m2 0 = 2
  /\ promise_of m2 0 = Some (Fulfilled (Example.stats "h1"))
  /\ promise_of m2 1 = Some (Fulfilled (Example.stats "h2")).
Proof. repeat split. Qed.

Lemma createWebpackAPI_throws_iff_invalid_witness :
  (exists e,
      createWebpackAPI
        {| context := None;
           output_library := Some {| type := "commonjs" |};
           output_filename := FilenameString "[name].[contenthash].cjs";
           output_chunkFilename := FilenameString "[name].[contenthash].cjs";
           entry := EntryConfigured [] |} = Throw e)
  /\ (exists e,
      createWebpackAPI
        {| context := Some "/work";
           output_library := Some {| type := "commonjs" |};
           output_filename := FilenameString "[name].cjs";
           output_chunkFilename := FilenameFunction;
           entry := EntryConfigured [] |} = Throw e).
Proof.
  split.
  - apply (proj1 (createWebpackAPI_throws_iff_invalid _)).
    left. left. reflexivity.
  - apply (proj1 (createWebpackAPI_throws_iff_invalid _)).
    right. right. right. apply lacks_contenthash_spec. reflexivity.
Defined.

Lemma load_cached_or_fresh_witness :
  load "commonjs" a_h1 "h1" ∅ [] = (Ok (ModRef 0), a_h1_cached, [a_h1])
  /\ load "commonjs" a_h1 "h1" a_h1_cached [a_h1]
     = (Ok (ModRef 0), a_h1_cached, [a_h1])
  /\ load "commonjs" a_h1 "h2" a_h1_cached [a_h1]
     = (Ok (ModRef 1),
        <[ a_h1 := {| cached_hash := "h2"; cached_mod := ModRef 1 |} ]>
          a_h1_cached,
        [a_h1; a_h1]).
Proof.
  split; [|split].
  - apply (proj2 (load_cached_or_fresh (host_loader := Example.counting)
                    "commonjs" a_h1 "h1" ∅ [])
             Example.load_file (ModRef 0) [a_h1]).
    + apply empty_cache_miss.
    + reflexivity.
    + reflexivity.
  - apply (proj1 (load_cached_or_fresh (host_loader := Example.counting)
                    "commonjs" a_h1 "h1" a_h1_cached [a_h1])
             {| cached_hash := "h1"; cached_mod := ModRef 0 |}).
    + apply lookup_insert_eq.
    + reflexivity.
  - apply (proj2 (load_cached_or_fresh (host_loader := Example.counting)
                    "commonjs" a_h1 "h2" a_h1_cached [a_h1])
             Example.load_file (ModRef 1) [a_h1; a_h1]).
    + intros (c & Hc & Hh). unfold a_h1_cached in Hc.
      rewrite lookup_insert_eq in Hc. injection Hc as <-. discriminate.
    + reflexivity.
    + reflexivity.
Defined.

Lemma load_failure_leaves_cache_witness :
  load "commonjs" broken "h1" ∅ []
  = (Throw (MkError "Cannot find module /work/dist/broken.cjs"), ∅, [broken])
  /\ load "commonjs" broken "h1" ∅ [broken]
     = (Throw (MkError "Cannot find module /work/dist/broken.cjs"), ∅,
        [broken; broken]).
Proof.
  destruct (load_failure_leaves_cache (host_loader := Example.counting)
              "commonjs" broken "h1" ∅ [] [broken]
              Example.load_file
              (MkError "Cannot find module /work/dist/broken.cjs"))
    as [Hfirst Hnext].
  - apply empty_cache_miss.
  - reflexivity.
  - reflexivity.
  - split; [exact Hfirst|]. exact (Hnext _ _ _ Hfirst [broken]).
Defined.

Lemma h1_not_empty : "h1" <> "".
Proof. discriminate. Qed.

Lemma resolve_artifact_last_or_error_witness :
  resolve_artifact "/work" "/work/src/a.ts" (Example.stats_json "h1")
  = Ok a_h1
  /\ ssrLoadModule_resume "/work/src/empty.ts" (Ok (Example.stats "h1"))
       (Example.api "commonjs") []
     = (Throw (MkError "No assets found for ./src/empty.ts"),
        Example.api "commonjs", [])
  /\ ssrLoadModule_resume "/work/src/other.ts" (Ok (Example.stats "h1"))
       (Example.api "commonjs") []
     = (Throw (MkError "No assets found for ./src/other.ts"),
        Example.api "commonjs", []).
Proof.
  split; [|split].
  - pose proof (resolve_artifact_last_or_error
                  (host_loader := Example.counting) "/work/src/a.ts"
                  (Example.stats "h1") (Example.api "commonjs") [] "h1"
                  eq_refl eq_refl h1_not_empty) as Hthm.
    cbv zeta in Hthm. destruct Hthm as (_ & Hfound & _).
    refine (proj1 (Hfound _ ["runtime.1.cjs"; "a.h1.cjs"] "a.h1.cjs"
                     eq_refl _ eq_refl _ _)).
    + reflexivity.
    + discriminate.
    + discriminate.
  - pose proof (resolve_artifact_last_or_error
                  (host_loader := Example.counting) "/work/src/empty.ts"
                  (Example.stats "h1") (Example.api "commonjs") [] "h1"
                  eq_refl eq_refl h1_not_empty) as Hthm.
    cbv zeta in Hthm. destruct Hthm as (_ & _ & Hnone).
    apply Hnone. right. reflexivity.
  - pose proof (resolve_artifact_last_or_error
                  (host_loader := Example.counting) "/work/src/other.ts"
                  (Example.stats "h1") (Example.api "commonjs") [] "h1"
                  eq_refl eq_refl h1_not_empty) as Hthm.
    cbv zeta in Hthm. destruct Hthm as (_ & _ & Hnone).
    apply Hnone. left. reflexivity.
Defined.

Lemma ssrLoadModule_checks_stats_witness :
  ssrLoadModule_resume "/work/src/a.ts" (Ok failed_stats)
    (Example.api "commonjs") []
  = (Throw (MkError "ERROR in ./src/a.ts: Unexpected token"),
     Example.api "commonjs", [])
  /\ ssrLoadModule_resume "/work/src/a.ts" (Ok no_hash_stats)
       (Example.api "commonjs") []
     = (Throw (MkError "No hash found in stats"), Example.api "commonjs", []).
Proof.
  destruct (ssrLoadModule_checks_stats (host_loader := Example.counting)
              "/work/src/a.ts" (Example.api "commonjs") [])
    as (Herr & Hhash & _).
  split.
  - apply (Herr failed_stats). reflexivity.
  - apply (Hhash no_hash_stats); reflexivity.
Defined.

Lemma addEntry_idempotent_witness :
  invalidations (addEntry "/work" "/work/src/a.ts" createManager) = 1
  /\ entryPlugins (addEntry "/work" "/work/src/a.ts" createManager)
     = [("/work", "./src/a.ts", "./src/a.ts")]
  /\ addEntry "/work" "/work/src/a.ts"
       (addEntry "/work" "/work/src/a.ts" createManager)
     = addEntry "/work" "/work/src/a.ts" createManager.
Proof.
  destruct (addEntry_idempotent "/work" "/work/src/a.ts" createManager)
    as (_ & Hnew & _ & Htwice & _).
  destruct Hnew as (_ & Hplugins & Hinv).
  - apply not_elem_of_empty.
  - split; [exact Hinv|]. split; [exact Hplugins|exact Htwice].
Defined.

Lemma waitForDone_not_running_witness :
  waitForDone
    (run "/work"
       [EvWatchRun; EvDone; EvWatchCallback None (Some (Example.stats "h1"))]
       createManager)
  = (WaitReturn (Example.stats "h1"),
     run "/work"
       [EvWatchRun; EvDone; EvWatchCallback None (Some (Example.stats "h1"))]
       createManager)
  /\ waitForDone (run "/work" [] createManager)
     = (WaitThrow (MkError "No build status available"),
        run "/work" [] createManager).
Proof.
  split.
  - apply (waitForDone_not_running "/work"
             [EvWatchRun; EvDone;
              EvWatchCallback None (Some (Example.stats "h1"))]).
    reflexivity.
  - apply (waitForDone_not_running "/work" []). reflexivity.
Defined.

Lemma waiters_settled_once_witness :
  promise_of
    (watchCallback None (Some (Example.stats "h1"))
       (run "/work" [EvWatchRun; EvWaitForDone; EvWaitForDone] createManager))
    1
  = Some (Fulfilled (Example.stats "h1")).
Proof.
  destruct (waiters_settled_once "/work"
              [EvWatchRun; EvWaitForDone; EvWaitForDone]
              None (Some (Example.stats "h1")))
    as (_ & Hsettle & _).
  apply (Hsettle 1).
  - apply list_elem_of_In. right. left. reflexivity.
  - reflexivity.
Defined.

Lemma entry_key_is_lookup_key_witness :
  ("/work", "./src/a.ts", "./src/a.ts")
  ∈ entryPlugins
      (api_manager (ssrLoadModule_addEntry "src/a.ts" (Example.api "commonjs"))).
Proof.
  destruct (entry_key_is_lookup_key (Example.api "commonjs") [] "src/a.ts")
    as (_ & _ & Hin).
  - reflexivity.
  - reflexivity.
  - exact Hin.
Defined.

Example running_example :
  running (run "/work" [EvWatchRun; EvDone; EvInvalid; EvWaitForDone]
             createManager) = true.
Proof. reflexivity. Qed.

Lemma entry_plugins_well_formed_witness :
  "/work" = "/work"
  /\ "./src/a.ts" = "./src/a.ts"
  /\ (exists filename,
        filename ∈ entries (run "/work" [EvAddEntry "/work/src/a.ts"]
                              createManager)
        /\ "./src/a.ts" = addEntry_relative "/work" filename)
  /\ (Js.startsWith "./src/a.ts" "./" = true
      \/ Js.startsWith "./src/a.ts" "../" = true)
  /\ Js.includes "./src/a.ts" "\" = false.
Proof.
  apply (entry_plugins_well_formed "/work" [EvAddEntry "/work/src/a.ts"]).
  apply (bool_decide_unpack _). vm_compute. exact I.
Defined.

Lemma waiters_kept_and_settled_again_witness :
  0 ∈ waiting
        (run "/work"
           [EvWatchCallback None (Some (Example.stats "h1")); EvInvalid;
            EvWatchCallback None (Some (Example.stats "h2"))]
           (run "/work" [EvWatchRun; EvWaitForDone] createManager))
  /\ calls_of
       (run "/work"
          [EvWatchCallback None (Some (Example.stats "h1")); EvInvalid;
           EvWatchCallback None (Some (Example.stats "h2"))]
          (run "/work" [EvWatchRun; EvWaitForDone] createManager)) 0
     = calls_of (run "/work" [EvWatchRun; EvWaitForDone] createManager) 0 + 2.
Proof.
  apply (waiters_kept_and_settled_again "/work" [EvWatchRun; EvWaitForDone]
           [EvWatchCallback None (Some (Example.stats "h1")); EvInvalid;
            EvWatchCallback None (Some (Example.stats "h2"))] 0).
  apply list_elem_of_In. left. reflexivity.
Defined.

Lemma waiters_and_late_callers_agree_witness :
  promise_of
    (watchCallback None (Some (Example.stats "h1")) (api_manager waiting_api))
    0
  = Some (Fulfilled (Example.stats "h1"))
  /\ fst (waitForDone
            (watchCallback None (Some (Example.stats "h1"))
               (api_manager waiting_api)))
     = WaitReturn (Example.stats "h1").
Proof.
  destruct (waiters_and_late_callers_agree "/work"
              [EvWatchRun; EvWaitForDone; EvWaitForDone]
              None (Some (Example.stats "h1"))) as [Hwaiters Hlate].
  split.
  - apply (Hwaiters 0); [|reflexivity].
    apply list_elem_of_In. left. reflexivity.
  - exact (f_equal fst Hlate).
Defined.

Lemma first_call :
  ssrLoadModule_resume "/work/src/a.ts" (Ok (Example.stats "h1"))
    (Example.api "commonjs") []
  = (Ok (ModRef 0), set_modCache a_h1_cached (Example.api "commonjs"), [a_h1]).
Proof. vm_compute. reflexivity. Qed.

Lemma ssrLoadModule_touches_one_entry_witness :
  exists stats0 loaded,
    Ok (Example.stats "h1") = Ok stats0
    /\ resolve_artifact "/work" "/work/src/a.ts" (toJson stats0) = Ok a_h1
    /\ Ok (ModRef 0) = Ok loaded.
Proof.
  apply (proj2 (proj2 (ssrLoadModule_touches_one_entry _ _ _ _ _ _ _
                         first_call)) a_h1).
  simpl. unfold a_h1_cached. rewrite lookup_insert_eq, lookup_empty.
  discriminate.
Defined.

Lemma ssrLoadModule_same_build_same_module_witness :
  ssrLoadModule_resume "/work/src/a.ts" (Ok (Example.stats "h1"))
    (set_modCache a_h1_cached (Example.api "commonjs")) [a_h1]
  = (Ok (ModRef 0), set_modCache a_h1_cached (Example.api "commonjs"), [a_h1]).
Proof.
  exact (ssrLoadModule_same_build_same_module _ _ _ _ _ _ _ first_call [a_h1]).
Defined.

Lemma modCache_never_evicts_witness :
  is_Some
    (modCache
       (set_modCache
          (<[ "/work/dist/a.h2.cjs" :=
                {| cached_hash := "h2"; cached_mod := ModRef 1 |} ]>
             a_h1_cached)
          (Example.api "commonjs"))
     !! a_h1).
Proof.
  apply (modCache_never_evicts (host_loader := Example.counting)
           "/work/src/a.ts" (Ok (Example.stats "h2"))
           (set_modCache a_h1_cached (Example.api "commonjs")) [a_h1]
           (Ok (ModRef 1)) _ ["/work/dist/a.h2.cjs"; a_h1] a_h1).
  - vm_compute. reflexivity.
  - exists {| cached_hash := "h1"; cached_mod := ModRef 0 |}.
    apply lookup_insert_eq.
Defined.

Lemma ssrLoadModule_twice_witness :
  ssrLoadModule [EvInvalid] "src/a.ts"
    (set_modCache a_h1_cached built_api) [a_h1]
  = inl (Ok (ModRef 0), set_modCache a_h1_cached built_api, [a_h1]).
Proof.
  apply (ssrLoadModule_twice (host_loader := Example.counting)
           [] [EvInvalid] "src/a.ts" built_api []).
  vm_compute. reflexivity.
Defined.

Lemma ssrLoadModule_new_entry_waits_witness :
  exists d api',
    ssrLoadModule_begin [EvInvalid] "src/b.ts" built_api
    = (WaitPending d, api')
    /\ promise_of (api_manager api') d = None.
Proof.
  destruct (ssrLoadModule_new_entry_waits [EvInvalid] "src/b.ts" built_api
              built_trace) as (d & api' & Hbegin & _ & _ & Hp & _).
  - vm_compute. reflexivity.
  - apply (bool_decide_unpack _). vm_compute. exact I.
  - reflexivity.
  - exists d, api'. split; assumption.
Defined.


Lemma createWebpackAPI_result_witness :
  entry (api_options (Example.api "commonjs"))
  = EntryNoop "/work/node_modules/webpack-runtime-api/dist/noop.js"
  /\ createManager_checked (api_options (Example.api "commonjs"))
     = Ok createManager.
Proof.
  destruct (createWebpackAPI_result (Example.options "commonjs")
              (Example.api "commonjs"))
    as (_ & _ & _ & _ & Hentry & _ & Hcheck & _).
  - vm_compute. reflexivity.
  - split; [exact Hentry | exact Hcheck].
Defined.
